(** * Hybrid retrieval pipeline of [cai_trial.py]: a shallow embedding

    The development follows the source file top to bottom: the Python
    primitives the code relies on ([str.lower], [str.split], [" ".join],
    slicing, [in] on strings, [sorted], the [np] module), then [chunk_text],
    the index constructors and [retrieve], and finally the properties. *)

From Stdlib Require Import ZArith QArith Qround Qabs Lia String Ascii Sorted Permutation.
From stdpp Require Import base list strings gmap sorting.

Local Open Scope string_scope.
Local Open Scope Z_scope.

(* ===================================================================== *)
(** ** Python strings *)
(* ===================================================================== *)

Module PyStr.

(** Strings are byte strings here; [str.lower] and [str.isspace] are
    modelled on the ASCII range. *)
Definition lower_ascii (c : ascii) : ascii :=
  let n := nat_of_ascii c in
  if ((65 <=? n)%nat && (n <=? 90)%nat)%bool then ascii_of_nat (n + 32) else c.

Fixpoint lower (s : string) : string :=
  match s with
  | EmptyString => EmptyString
  | String c s' => String (lower_ascii c) (lower s')
  end.

(** [c.isspace()]: tab, newline, vertical tab, form feed, carriage
    return, the four separators 0x1c..0x1f and the blank. *)
Definition isspace (c : ascii) : bool :=
  let n := nat_of_ascii c in
  (((9 <=? n)%nat && (n <=? 13)%nat) || ((28 <=? n)%nat && (n <=? 32)%nat))%bool.

(** [s.split()] with no separator: maximal runs of non-blank characters. *)
Fixpoint split (s : string) : list string :=
  match s with
  | EmptyString => []
  | String c s' =>
      if isspace c then split s'
      else match s' with
           | EmptyString => [String c EmptyString]
           | String c' _ =>
               if isspace c' then String c EmptyString :: split s'
               else match split s' with
                    | w :: ws => String c w :: ws
                    | [] => [String c EmptyString]
                    end
           end
  end.

(** [sep.join(ws)] *)
Fixpoint join (sep : string) (ws : list string) : string :=
  match ws with
  | [] => EmptyString
  | w :: ws' =>
      match ws' with
      | [] => w
      | _ :: _ => w ++ sep ++ join sep ws'
      end
  end.

(** [needle in hay] on strings: substring test. *)
Fixpoint contains (needle hay : string) : bool :=
  if String.prefix needle hay then true
  else match hay with
       | EmptyString => false
       | String _ hay' => contains needle hay'
       end.

Fixpoint chars (s : string) : list ascii :=
  match s with
  | EmptyString => []
  | String c s' => c :: chars s'
  end.

#[global] Arguments isspace : simpl never.
#[global] Arguments lower_ascii : simpl never.

(** A word: what [split] produces, non-empty and free of blanks. *)
Definition word (w : string) : Prop :=
  w <> EmptyString /\ Forall (fun c => isspace c = false) (chars w).

End PyStr.

(* ===================================================================== *)
(** ** Python sequences *)
(* ===================================================================== *)

Module PySeq.

(** Normalisation of a slice bound against a sequence of length [n]. *)
Definition norm (n i : Z) : Z :=
  if i <? 0 then Z.max (i + n) 0 else Z.min i n.

(** [l[lo:hi]] *)
Definition slice {A} (l : list A) (lo hi : Z) : list A :=
  let n := Z.of_nat (length l) in
  let a := norm n lo in
  let b := norm n hi in
  take (Z.to_nat (b - a)) (drop (Z.to_nat a) l).

(** [l[:hi]] *)
Definition slice_to {A} (l : list A) (hi : Z) : list A :=
  slice l 0 hi.

(** [l[i]]: negative indices count from the end; out of range is
    [IndexError], rendered as [None]. *)
Definition index {A} (l : list A) (i : Z) : option A :=
  let n := Z.of_nat (length l) in
  if (0 <=? i) && (i <? n) then l !! Z.to_nat i
  else if (- n <=? i) && (i <? 0) then l !! Z.to_nat (i + n)
  else None.

End PySeq.

(* ===================================================================== *)
(** ** [extract_text_from_pdf] and [clean_text] *)
(* ===================================================================== *)

(** The line feed appended after each page. *)
Definition newline : string := String (ascii_of_nat 10) EmptyString.

(** An uploaded PDF, as the reader presents it: one entry per page,
    holding what [page.extract_text()] returns, [None] or a string. *)
Definition pdf : Type := list (option string).

(** The [for page in reader.pages] loop; [if page_text:] lets through
    strings that are not empty. *)
Fixpoint extract_loop (pages : pdf) (text : string) : string :=
  match pages with
  | [] => text
  | page_text :: pages' =>
      extract_loop pages'
        match page_text with
        | Some (String c t) => text ++ String c t ++ newline
        | Some EmptyString | None => text
        end
  end.

Definition extract_text_from_pdf (pdf_file : pdf) : string :=
  extract_loop pdf_file EmptyString.

(** What a page contributes: its words, nothing for [None] or [""]. *)
Definition page_words (page_text : option string) : list string :=
  match page_text with
  | Some t => PyStr.split t
  | None => []
  end.

(** [re.sub(r'\s+', ' ', text)]: every maximal run of blanks becomes one
    space.  A blank followed by a blank is dropped; the last blank of a
    run is the one replaced. *)
Fixpoint sub_blank_runs (text : string) : string :=
  match text with
  | EmptyString => EmptyString
  | String c text' =>
      if PyStr.isspace c then
        match text' with
        | String c' _ =>
            if PyStr.isspace c' then sub_blank_runs text'
            else String " " (sub_blank_runs text')
        | EmptyString => String " " EmptyString
        end
      else String c (sub_blank_runs text')
  end.

(** [s.lstrip()], [s.rstrip()] and [s.strip()] *)
Fixpoint lstrip (s : string) : string :=
  match s with
  | EmptyString => EmptyString
  | String c s' => if PyStr.isspace c then lstrip s' else s
  end.

Fixpoint rstrip (s : string) : string :=
  match s with
  | EmptyString => EmptyString
  | String c s' =>
      match rstrip s' with
      | EmptyString => if PyStr.isspace c then EmptyString else String c EmptyString
      | String d r => String c (String d r)
      end
  end.

Definition strip (s : string) : string := rstrip (lstrip s).

Definition clean_text (text : string) : string :=
  strip (sub_blank_runs text).

(* ===================================================================== *)
(** ** [chunk_text] *)
(* ===================================================================== *)

(** The [while i < len(words)] loop.  [fuel] bounds the number of
    iterations; [None] means the bound was hit before the loop exited. *)
Fixpoint chunk_loop (fuel : nat) (words : list string) (chunk_size overlap : Z)
    (i : Z) (chunks : list string) : option (list string) :=
  match fuel with
  | O => None
  | S fuel' =>
      if i <? Z.of_nat (length words) then
        let chunk := PyStr.join " " (PySeq.slice words i (i + chunk_size)) in
        chunk_loop fuel' words chunk_size overlap
          (i + (chunk_size - overlap)) (chunks ++ [chunk])
      else Some chunks
  end.

Definition chunk_text (fuel : nat) (text : string) (chunk_size overlap : Z)
    : option (list string) :=
  chunk_loop fuel (PyStr.split text) chunk_size overlap 0 [].

(** [process_pdfs]: the [for pdf_file in pdf_files] loop, extending
    [all_chunks] file by file.  [fuel] bounds the iterations of each
    call of [chunk_text]. *)
Fixpoint process_loop (fuel : nat) (pdf_files : list pdf) (chunk_size overlap : Z)
    (all_chunks : list string) : option (list string) :=
  match pdf_files with
  | [] => Some all_chunks
  | pdf_file :: pdf_files' =>
      let text := extract_text_from_pdf pdf_file in
      let cleaned := clean_text text in
      match chunk_text fuel cleaned chunk_size overlap with
      | Some chunks =>
          process_loop fuel pdf_files' chunk_size overlap (all_chunks ++ chunks)
      | None => None
      end
  end.

Definition process_pdfs (fuel : nat) (pdf_files : list pdf) (chunk_size overlap : Z)
    : option (list string) :=
  process_loop fuel pdf_files chunk_size overlap [].

(* ===================================================================== *)
(** ** Effects: exceptions and what the caller can observe *)
(* ===================================================================== *)

(** The exceptions the pipeline can end in. *)
Inductive exn : Type :=
| NameError (name : string)       (* a name bound in no enclosing scope *)
| TypeError (msg : string)
| IndexError
| ValueError (msg : string)
| DimensionMismatch
| EmptyIndex
| ExternalError (msg : string).   (* raised inside an injected model *)

(** Calls into the injected collaborators and messages shown through
    streamlit, in program order. *)
Inductive event : Type :=
| StWarning (msg : string)
| StInfo (msg : string)
| CallEncode (texts : list string)
| CallSearch (query_vectors : list (list Q)) (k : Z)
| CallGetScores (tokens : list string)
| CallPredict (pairs : list (string * string)).

Inductive outcome (A : Type) : Type :=
| Return (a : A)
| Raise (e : exn).
Arguments Return {A} a.
Arguments Raise {A} e.

(** A computation: the events it performed, then how it ended. *)
Definition M (A : Type) : Type := (list event * outcome A)%type.

#[global] Instance M_ret : MRet M := fun A a => ([], Return a).
#[global] Instance M_bind : MBind M := fun A B f m =>
  match m with
  | (tr, Return a) => let '(tr', r) := f a in (tr ++ tr', r)%list
  | (tr, Raise e) => (tr, Raise e)
  end.

Definition raise {A} (e : exn) : M A := ([], Raise e).
Definition emit (ev : event) : M unit := ([ev], Return tt).
Definition call {A} (ev : event) (r : outcome A) : M A := ([ev], r).
Definition lift {A} (r : outcome A) : M A := ([], r).
Definition or_raise {A} (e : exn) (o : option A) : M A :=
  match o with Some a => mret a | None => raise e end.

Definition trace {A} (m : M A) : list event := fst m.
Definition result {A} (m : M A) : outcome A := snd m.

(* ===================================================================== *)
(** ** Scores and [sorted] *)
(* ===================================================================== *)

(** Scores are the finite values of the float scale, as rationals. *)
Definition Qltb (x y : Q) : bool := negb (Qle_bool y x).

Section StableSort.
Context {A : Type} (leb : A -> A -> bool).

(** [x] goes in front of the first element it is [leb] to, so an
    element stays in front of the equal ones that followed it. *)
Fixpoint insert_sorted (x : A) (l : list A) : list A :=
  match l with
  | [] => [x]
  | y :: l' => if leb x y then x :: l else y :: insert_sorted x l'
  end.

Fixpoint stable_sort (l : list A) : list A :=
  match l with
  | [] => []
  | x :: l' => insert_sorted x (stable_sort l')
  end.
End StableSort.

(** [sorted(l, key=key, reverse=True)]: descending, and equal keys keep
    their input order. *)
Definition sorted_desc {A} (key : A -> Q) (l : list A) : list A :=
  stable_sort (fun x y => Qle_bool (key y) (key x)) l.

(* ===================================================================== *)
(** ** numpy *)
(* ===================================================================== *)

(** [scores[i]], read as 0 where there is no such position. *)
Definition score_at (bm25_scores : list Q) (i : Z) : Q :=
  default 0%Q (PySeq.index bm25_scores i).

(** The [np] module, by what the code uses of it.

    [np.argsort(scores)] "returns the indices that would sort" the
    array: every position once, in ascending score order.  The code
    passes no [kind], and the default kind is not stable, so the order
    in which positions with equal scores come is the sort's own; it can
    differ between numpy builds and is no part of its contract.

    [float32] is [astype("float32")] on one value: the nearest
    single-precision value.  Nothing is assumed about it; the values are
    taken within the finite range of single precision. *)
Record Numpy := {
  argsort : list Q -> list Z;
  argsort_positions :
    forall scores, argsort scores ≡ₚ seqZ 0 (Z.of_nat (length scores));
  argsort_ascending :
    forall scores,
      StronglySorted (fun i j => (score_at scores i <= score_at scores j)%Q)
        (argsort scores);
  float32 : Q -> Q
}.

(** A list of rows that [np.array] turns into a two-dimensional array:
    all rows have one length. *)
Definition rectangular (rows : list (list Q)) : bool :=
  match rows with
  | [] => true
  | row :: rows' => forallb (fun r => (length r =? length row)%nat) rows'
  end.

(** [np.array(rows).astype("float32")], lines 93 and 146: rows of
    different lengths make no numeric array ([ValueError]); otherwise
    every value is converted. *)
Definition as_float32 (np : Numpy) (rows : list (list Q)) : M (list (list Q)) :=
  if rectangular rows then mret (map (map (float32 np)) rows)
  else raise (ValueError "setting an array element with a sequence").

(** Stand-ins for numpy.  First the conversion: rounding to a 24-bit
    significand, ties to even, with the fixed spacing [2^-149] below the
    normal range.  Values beyond the largest single-precision number,
    which numpy turns into infinities, are outside the scale of finite
    values used here. *)
Definition round_half_even (q : Q) : Z :=
  let f := Qfloor q in
  match (q - inject_Z f ?= 1 # 2)%Q with
  | Lt => f
  | Eq => if Z.even f then f else f + 1
  | Gt => f + 1
  end.

(** The exponent [e] with [2^e <= a < 2^(e+1)], for [a > 0]. *)
Definition floor_log2 (a : Q) : Z :=
  let e := Z.log2 (Qnum a) - Z.log2 (Zpos (Qden a)) in
  if Qle_bool (2 ^ e) a then e else e - 1.

Definition round_single (q : Q) : Q :=
  if Qeq_bool q 0 then 0%Q
  else
    let a := Qabs q in
    let ulp := (2 ^ (Z.max (floor_log2 a) (-126) - 23))%Q in
    let m := inject_Z (round_half_even (a / ulp)) in
    Qred ((if Qle_bool 0 q then m else - m) * ulp).

(** Then the sort.  The positions are first put in the order [arrange]
    gives them, then sorted by score with the insertion sort above,
    which leaves equal scores as [arrange] had them: each [arrange] is
    one way of ordering the ties. *)
Definition score_leb (scores : list Q) (i j : Z) : bool :=
  Qle_bool (score_at scores i) (score_at scores j).

Definition argsort_arranged (arrange : list Z -> list Z) (scores : list Q) : list Z :=
  stable_sort (score_leb scores) (arrange (seqZ 0 (Z.of_nat (length scores)))).

Definition numpy_arranging (arrange : list Z -> list Z)
    (arrange_perm : forall l, arrange l ≡ₚ l) : Numpy.
Proof.
  assert (forall scores x l, insert_sorted (score_leb scores) x l ≡ₚ x :: l) as Hins.
  { intros scores x l. induction l as [|y l IH]; simpl; [reflexivity|].
    destruct (score_leb scores x y); [reflexivity|].
    rewrite IH. apply Permutation_swap. }
  refine {| argsort := argsort_arranged arrange; float32 := round_single |};
    intros scores; unfold argsort_arranged.
  - transitivity (arrange (seqZ 0 (Z.of_nat (length scores)))); [|apply arrange_perm].
    generalize (arrange (seqZ 0 (Z.of_nat (length scores)))). intros l.
    induction l as [|x l IH]; simpl; [reflexivity|].
    rewrite Hins, IH. reflexivity.
  - generalize (arrange (seqZ 0 (Z.of_nat (length scores)))). intros l.
    induction l as [|x l IH]; simpl; [constructor|].
    revert IH. generalize (stable_sort (score_leb scores) l). clear l. intros l.
    induction l as [|y l IH]; intros Hl; simpl; [repeat constructor|].
    apply StronglySorted_inv in Hl as [Hl Hy].
    destruct (score_leb scores x y) eqn:E; unfold score_leb in E.
    + apply Qle_bool_iff in E. constructor; [constructor; assumption|].
      constructor; [exact E|].
      eapply Forall_impl; [exact Hy|].
      intros z Hz. simpl in Hz. exact (Qle_trans _ _ _ E Hz).
    + constructor; [apply IH, Hl|].
      rewrite Hins. constructor; [|exact Hy].
      apply Qlt_le_weak, Qnot_le_lt. intros H.
      apply Qle_bool_iff in H. congruence.
Defined.

(* ===================================================================== *)
(** ** Module namespace *)
(* ===================================================================== *)

(** What a global name can be bound to: a list of strings, or some other
    object (module, class, function). *)
Inductive value : Type :=
| VStrList (l : list string)
| VObject.

(** The names bound at module level once [cai_trial.py] has been
    executed: the imports and the eight [def]s. *)
Definition module_globals : gmap string value :=
  list_to_map
    [("re", VObject); ("np", VObject); ("PyPDF2", VObject); ("faiss", VObject);
     ("st", VObject); ("SentenceTransformer", VObject); ("CrossEncoder", VObject);
     ("BM25Okapi", VObject); ("pipeline", VObject);
     ("extract_text_from_pdf", VObject); ("clean_text", VObject);
     ("chunk_text", VObject); ("process_pdfs", VObject);
     ("create_embedding_index", VObject); ("create_bm25_index", VObject);
     ("retrieve", VObject); ("generate_response", VObject); ("main", VObject)].

(** [LOAD_GLOBAL]: a name that is not local to the running function is
    looked up in the module namespace (no builtin is called
    [finance_keywords]). *)
Definition load_global (g : gmap string value) (name : string) : M value :=
  or_raise (NameError name) (g !! name).

(** Iterating a value in a [for] clause. *)
Definition iter_strings (v : value) : M (list string) :=
  match v with
  | VStrList l => mret l
  | VObject => raise (TypeError "object is not iterable")
  end.

(* ===================================================================== *)
(** ** Injected collaborators *)
(* ===================================================================== *)

(** The models and indexes are objects handed to the functions; each is
    rendered by the one method the code calls on it. *)
Record EmbedModel := { encode : list string -> outcome (list (list Q)) }.
Record FaissIndex :=
  { search : list (list Q) -> Z -> outcome (list (list Q) * list (list Z)) }.
Record Bm25 := { get_scores : list string -> outcome (list Q) }.
Record CrossEncoder := { predict : list (string * string) -> outcome (list Q) }.

(** Iteration order of [set(l)]: some enumeration without repetition of
    the elements of [l], fixed by the interpreter's string hashing. *)
Record SetOrder := {
  set_iter : list string -> list string;
  set_iter_NoDup : forall l, NoDup (set_iter l);
  set_iter_elem : forall l x, x ∈ set_iter l <-> x ∈ l
}.

(* ===================================================================== *)
(** ** The embedding index *)
(* ===================================================================== *)

Module EmbeddingIndex.

Record EmbeddingVector := { chunk_id : Z; vector : list Q }.

(** An index of dimension [dim] over the stored vectors. *)
Record Index := { dim : nat; vectors : list EmbeddingVector }.

(** Modelled from the spec: the nearest-neighbour index itself (the
    [faiss.IndexFlatL2] object) is not part of the source.  [build]
    takes one vector per chunk; all must have one length, "mismatch is
    a build-time error", and zero vectors make no index. *)
Definition build (vs : list EmbeddingVector) : outcome Index :=
  match vs with
  | [] => Raise EmptyIndex
  | v :: _ =>
      let d := length (vector v) in
      if forallb (fun w => Nat.eqb (length (vector w)) d) vs
      then Return {| dim := d; vectors := vs |}
      else Raise DimensionMismatch
  end.

(** Squared Euclidean distance. *)
Definition sq_dist (a b : list Q) : Q :=
  foldr Qplus 0%Q (zip_with (fun x y => (x - y) * (x - y))%Q a b).

(** Nearer first; at equal distance the smaller chunk id first. *)
Definition nearer (x y : Z * Q) : bool :=
  Qltb (snd x) (snd y) || (Qeq_bool (snd x) (snd y) && (fst x <=? fst y)).

(** Modelled from the spec: [search(query_vector, k)] "returns the k
    chunks whose vectors have smallest squared Euclidean distance to
    the query vector, ascending by distance", "ties broken by ascending
    chunk id"; it "fails with DimensionMismatch if query_vector length
    differs from the index's fixed dimension" and "with EmptyIndex if
    called ... on zero vectors". *)
Definition search (idx : Index) (query_vector : list Q) (k : Z)
    : outcome (list (Z * Q)) :=
  match vectors idx with
  | [] => Raise EmptyIndex
  | _ :: _ =>
      if Nat.eqb (length query_vector) (dim idx) then
        Return (take (Z.to_nat k)
                  (stable_sort nearer
                     (map (fun v => (chunk_id v, sq_dist (vector v) query_vector))
                          (vectors idx))))
      else Raise DimensionMismatch
  end.

(** The batch interface [retrieve] calls: one row of distances and one
    row of chunk positions per query vector. *)
Fixpoint search_batch (idx : Index) (qs : list (list Q)) (k : Z)
    : outcome (list (list Q) * list (list Z)) :=
  match qs with
  | [] => Return ([], [])
  | q :: qs' =>
      match search idx q k with
      | Raise e => Raise e
      | Return hits =>
          match search_batch idx qs' k with
          | Raise e => Raise e
          | Return (ds, ids) => Return (hits.*2 :: ds, hits.*1 :: ids)
          end
      end
  end.

Definition as_faiss (idx : Index) : FaissIndex :=
  Build_FaissIndex (search_batch idx).

End EmbeddingIndex.

(* ===================================================================== *)
(** ** Index construction *)
(* ===================================================================== *)

(** [embeddings.shape[1]]: the row length of a two-dimensional array;
    an array without rows has no second axis ([IndexError]). *)
Definition shape1 (embeddings : list (list Q)) : M nat :=
  or_raise IndexError (length <$> head embeddings).

(** [create_embedding_index]: one embedding per chunk, converted to
    single precision and added to the index in chunk order, so that
    position and chunk id coincide. *)
Definition create_embedding_index (np : Numpy) (chunks : list string)
    (model : EmbedModel) : M (FaissIndex * list (list Q)) :=
  embeddings ← call (CallEncode chunks) (encode model chunks);
  embeddings ← as_float32 np embeddings;
  d ← shape1 embeddings;
  index ← lift (EmbeddingIndex.build
                  (imap (fun i v => {| EmbeddingIndex.chunk_id := Z.of_nat i;
                                       EmbeddingIndex.vector := v |}) embeddings));
  mret (EmbeddingIndex.as_faiss index, embeddings).

(** [create_bm25_index]; [BM25Okapi] is the imported class. *)
Definition create_bm25_index (BM25Okapi : list (list string) -> outcome Bm25)
    (chunks : list string) : M (Bm25 * list (list string)) :=
  let tokenized_corpus := map (fun chunk => PyStr.split (PyStr.lower chunk)) chunks in
  bm25 ← lift (BM25Okapi tokenized_corpus);
  mret (bm25, tokenized_corpus).

(* ===================================================================== *)
(** ** [retrieve] *)
(* ===================================================================== *)

(** What [retrieve] returns: [None], or a 3-tuple (text, score, ranked
    list of (text, score) pairs). *)
Inductive retval : Type :=
| RNone
| RTuple (top_candidate : string) (top_score : Q) (ranked : list (string * Q)).

(** The keyword list of lines 131-134. *)
Definition finance_keywords : list string :=
  ["revenue"; "profit"; "financial"; "income"; "expense"; "cash";
   "growth"; "market"; "cost"; "margin"; "operating"].

(** Lines 129-134: the function defined inside [retrieve], with the same
    parameters.  Its whole body is the assignment of the keyword list,
    which makes [finance_keywords] a local of this inner function; it
    then returns [None].  Nothing calls it. *)
Definition retrieve_nested (query : string) (chunks : list string)
    (embedding_index : FaissIndex) (embeddings : list (list Q))
    (embed_model : EmbedModel) (bm25 : Bm25) (tokenized_corpus : list (list string))
    (cross_encoder : CrossEncoder) (top_k : Z) : M retval :=
  let finance_keywords := finance_keywords in
  mret RNone.

(** [any(word in query.lower() for word in kws)] *)
Definition any_keyword (kws : list string) (query : string) : bool :=
  existsb (fun word => PyStr.contains word (PyStr.lower query)) kws.

(** [[chunks[i] for i in ids]] *)
Definition chunks_at (chunks : list string) (ids : list Z) : M (list string) :=
  or_raise IndexError (mapM (PySeq.index chunks) ids).

(** [np.argsort(bm25_scores)[::-1][:top_k]] *)
Definition bm25_top_indices (np : Numpy) (bm25_scores : list Q) (top_k : Z) : list Z :=
  PySeq.slice_to (reverse (argsort np bm25_scores)) top_k.

(** Position [i] may be listed before position [j]: its score is not
    the lower one. *)
Definition score_not_below (bm25_scores : list Q) (i j : Z) : Prop :=
  (score_at bm25_scores j <= score_at bm25_scores i)%Q.

(** Positions with equal scores are listed by ascending position. *)
Definition ties_ascending (bm25_scores : list Q) (ids : list Z) : Prop :=
  forall (p q : nat) (i j : Z),
    (p < q)%nat -> ids !! p = Some i -> ids !! q = Some j ->
    (score_at bm25_scores i == score_at bm25_scores j)%Q -> i < j.

(** [list(set(faiss_candidates + bm25_candidates))] *)
Definition candidate_set (so : SetOrder) (faiss_candidates bm25_candidates : list string)
    : list string :=
  set_iter so (faiss_candidates ++ bm25_candidates).

(** [sorted(zip(candidate_set, cross_scores), key=lambda x: x[1], reverse=True)] *)
Definition ranked_candidates (candidates : list string) (cross_scores : list Q)
    : list (string * Q) :=
  sorted_desc snd (zip candidates cross_scores).

Definition no_results : retval := RTuple "No relevant information found." 0 [].

(** Lines 161-171: re-ranking and the output-side guard rail. *)
Definition rerank_and_flag (query : string) (candidates : list string)
    (cross_encoder : CrossEncoder) : M retval :=
  let cross_inputs := map (fun cand => (query, cand)) candidates in
  cross_scores ← call (CallPredict cross_inputs) (predict cross_encoder cross_inputs);
  let ranked := ranked_candidates candidates cross_scores in
  '(top_candidate, top_score) ← or_raise IndexError (PySeq.index ranked 0);
  (if Qltb top_score (3 # 10) then emit (StInfo "Low confidence in retrieved answer.")
   else mret tt);;
  mret (RTuple top_candidate top_score ranked).

(** Lines 141-154: the query embedding (computed twice, lines 141 and
    145) and its conversion to single precision, the dense search and
    the lexical top-k, each turned into chunk texts. *)
Definition retrieve_both (np : Numpy) (query : string) (chunks : list string)
    (embedding_index : FaissIndex) (embed_model : EmbedModel) (bm25 : Bm25)
    (top_k : Z) : M (list string * list string) :=
  _ ← call (CallEncode [query]) (encode embed_model [query]);
  query_embedding ← call (CallEncode [query]) (encode embed_model [query]);
  query_embedding ← as_float32 np query_embedding;
  '(distances, indices) ←
    call (CallSearch query_embedding top_k) (search embedding_index query_embedding top_k);
  row ← or_raise IndexError (PySeq.index indices 0);
  faiss_candidates ← chunks_at chunks row;
  let tokenized_query := PyStr.split (PyStr.lower query) in
  bm25_scores ← call (CallGetScores tokenized_query) (get_scores bm25 tokenized_query);
  bm25_candidates ← chunks_at chunks (bm25_top_indices np bm25_scores top_k);
  mret (faiss_candidates, bm25_candidates).

(** Lines 141-171: everything after the input-side guard rail. *)
Definition retrieve_candidates (np : Numpy) (so : SetOrder) (query : string)
    (chunks : list string) (embedding_index : FaissIndex) (embed_model : EmbedModel)
    (bm25 : Bm25) (cross_encoder : CrossEncoder) (top_k : Z) : M retval :=
  '(faiss_candidates, bm25_candidates) ←
    retrieve_both np query chunks embedding_index embed_model bm25 top_k;
  let candidates := candidate_set so faiss_candidates bm25_candidates in
  match candidates with
  | [] => mret no_results
  | _ :: _ => rerank_and_flag query candidates cross_encoder
  end.

(** [retrieve].  [np] is the numpy module, [g] the module namespace at
    the time of the call and [so] the interpreter's set order.  Line 129
    binds the nested function to a local name.  Line 136 is back at the outer level: no
    assignment in the outer body binds [finance_keywords], so the name
    is resolved in [g].  [embeddings] and [tokenized_corpus] are
    accepted and never read. *)
Definition retrieve (np : Numpy) (g : gmap string value) (so : SetOrder)
    (query : string) (chunks : list string) (embedding_index : FaissIndex)
    (embeddings : list (list Q)) (embed_model : EmbedModel) (bm25 : Bm25)
    (tokenized_corpus : list (list string)) (cross_encoder : CrossEncoder)
    (top_k : Z) : M retval :=
  let retrieve := retrieve_nested in
  keywords ← load_global g "finance_keywords";
  kws ← iter_strings keywords;
  if negb (any_keyword kws query) then
    emit (StWarning "Query does not appear to be related to financial data.");;
    mret RNone
  else
    retrieve_candidates np so query chunks embedding_index embed_model bm25
      cross_encoder top_k.

(** The set order that lists each element where it occurs last. *)
Definition last_occurrence_order : SetOrder :=
  {| set_iter := remove_dups;
     set_iter_NoDup := NoDup_remove_dups;
     set_iter_elem := fun l x => elem_of_remove_dups l x |}.

(** Another set order: the same enumeration, back to front. *)
Definition reversed_order : SetOrder :=
  {| set_iter := fun l => reverse (remove_dups l);
     set_iter_NoDup := fun l =>
       proj2 (NoDup_Permutation_proper _ _ (reverse_Permutation (remove_dups l)))
         (NoDup_remove_dups l);
     set_iter_elem := fun l x =>
       iff_trans (elem_of_reverse x (remove_dups l)) (elem_of_remove_dups l x) |}.

(** The query path of [main]: build both indexes from the chunks, then
    answer one query. *)
Definition build_and_retrieve (np : Numpy) (g : gmap string value) (so : SetOrder)
    (BM25Okapi : list (list string) -> outcome Bm25) (chunks : list string)
    (embed_model : EmbedModel) (cross_encoder : CrossEncoder)
    (query : string) (top_k : Z) : M retval :=
  '(embedding_index, embeddings) ← create_embedding_index np chunks embed_model;
  '(bm25, tokenized_corpus) ← create_bm25_index BM25Okapi chunks;
  retrieve np g so query chunks embedding_index embeddings embed_model
    bm25 tokenized_corpus cross_encoder top_k.

(* ===================================================================== *)
(** ** [generate_response] *)
(* ===================================================================== *)

(** Line 189, the f-string
    ["Question: {query}\nContext: {context}\nAnswer:"]. *)
Definition prompt (query context : string) : string :=
  "Question: " ++ query ++ newline ++ "Context: " ++ context ++ newline ++ "Answer:".

(** An event that is no call of the cross-encoder. *)
Definition not_predict (ev : event) : Prop :=
  forall pairs, ev <> CallPredict pairs.

(* ===================================================================== *)
(** ** A small corpus with deterministic stand-in models *)
(* ===================================================================== *)

Module Demo.

(** A numpy whose sort leaves equal scores in position order, as
    [kind="stable"] does and as the default kind does where it runs as
    an insertion sort. *)
Definition numpy : Numpy :=
  numpy_arranging (fun l => l) (fun l => Permutation_refl l).

(** A numpy whose sort does not: among equal scores the second and the
    third position come out exchanged, which is how the default kind has
    been seen to order the scores [2, 2, 2, 2, 0], as [4, 0, 2, 1, 3]. *)
Definition exchange (l : list Z) : list Z :=
  match l with
  | a :: b :: c :: l' => a :: c :: b :: l'
  | _ => l
  end.

Definition numpy_unstable : Numpy :=
  numpy_arranging exchange
    (fun l => match l with
              | a :: b :: c :: l' => perm_skip a (perm_swap b c l')
              | _ => Permutation_refl _
              end).

Definition chunks : list string :=
  ["revenue grew 10%"; "weather was sunny"; "operating margin improved"].

(** Embedding: (number of characters, number of words). *)
Definition embed_text (t : string) : list Q :=
  [inject_Z (Z.of_nat (String.length t));
   inject_Z (Z.of_nat (length (PyStr.split t)))].

Definition embed_model : EmbedModel :=
  {| encode := fun texts => Return (map embed_text texts) |}.

(** Lexical score: how many query tokens occur in the chunk. *)
Definition overlap_score (tokens chunk_tokens : list string) : Q :=
  inject_Z (Z.of_nat (length (filter (fun t => t ∈ chunk_tokens) tokens))).

Definition BM25Okapi (tokenized_corpus : list (list string)) : outcome Bm25 :=
  Return {| get_scores := fun tokens =>
              Return (map (overlap_score tokens) tokenized_corpus) |}.

(** Pairwise relevance: high when the passage mentions revenue. *)
Definition relevance (pair : string * string) : Q :=
  if PyStr.contains "revenue" (snd pair) then 9 # 10 else 1 # 10.

Definition cross_encoder : CrossEncoder :=
  {| predict := fun pairs => Return (map relevance pairs) |}.

(** A scorer that finds every passage weakly relevant. *)
Definition weak_cross_encoder : CrossEncoder :=
  {| predict := fun pairs => Return (map (fun _ => 15 # 100) pairs) |}.

(** A scorer that grades a passage by its length, in hundredths. *)
Definition grade (pair : string * string) : Q :=
  Z.of_nat (String.length (snd pair)) # 100.

Definition graded_cross_encoder : CrossEncoder :=
  {| predict := fun pairs => Return (map grade pairs) |}.

(** A scorer whose backing model is unavailable. *)
Definition failing_cross_encoder : CrossEncoder :=
  {| predict := fun _ => Raise (ExternalError "model unavailable") |}.

(** A module namespace in which [finance_keywords] has been bound at
    top level. *)
Definition globals_with_keywords : gmap string value :=
  <["finance_keywords" := VStrList finance_keywords]> module_globals.

Definition query : string := "What was the revenue growth?".

(** The indexes [main] would build over the sample corpus. *)
Definition embedding_index : FaissIndex :=
  match result (create_embedding_index numpy chunks embed_model) with
  | Return (index, _) => index
  | Raise _ => Build_FaissIndex (fun _ _ => Raise EmptyIndex)
  end.

Definition embeddings : list (list Q) :=
  map (map (float32 numpy)) (map embed_text chunks).

Definition tokenized_corpus : list (list string) :=
  map (fun chunk => PyStr.split (PyStr.lower chunk)) chunks.

Definition bm25 : Bm25 :=
  {| get_scores := fun tokens =>
       Return (map (overlap_score tokens) tokenized_corpus) |}.

Definition run (g : gmap string value) (ce : CrossEncoder)
    (query : string) (top_k : Z) : M retval :=
  build_and_retrieve numpy g last_occurrence_order BM25Okapi chunks embed_model
    ce query top_k.

End Demo.

(* ===================================================================== *)
(** * Properties *)
(* ===================================================================== *)

Section SplitJoin.
Import PyStr.

Lemma split_words (s : string) : Forall word (split s).
Proof.
  induction s as [|c s IH]; simpl; [constructor|].
  destruct (isspace c) eqn:Hc; [exact IH|].
  destruct s as [|c' s'].
  - constructor; [|constructor]. split; [discriminate|].
    simpl. constructor; [exact Hc|constructor].
  - destruct (isspace c') eqn:Hc'.
    + constructor; [|exact IH]. split; [discriminate|].
      simpl. constructor; [exact Hc|constructor].
    + destruct (split (String c' s')) as [|w ws] eqn:Hs.
      * constructor; [|constructor]. split; [discriminate|].
        simpl. constructor; [exact Hc|constructor].
      * inversion IH as [|? ? [Hne Hw] Hws]; subst.
        constructor; [|exact Hws]. split; [discriminate|].
        simpl. constructor; [exact Hc|exact Hw].
Qed.

Lemma append_String (c : ascii) (s t : string) :
  String c s ++ t = String c (s ++ t).
Proof. reflexivity. Qed.

Lemma append_Empty_l (t : string) : EmptyString ++ t = t.
Proof. reflexivity. Qed.

Lemma append_Empty_r (s : string) : s ++ EmptyString = s.
Proof. induction s as [|c s IH]; [reflexivity|]. rewrite append_String, IH. reflexivity. Qed.

(** A blank-free prefix followed by nothing or by a blank is split off
    as one word. *)
Lemma split_word_app (w s : string) :
  word w ->
  (s = EmptyString \/ exists c s', s = String c s' /\ isspace c = true) ->
  split (w ++ s) = w :: split s.
Proof.
  intros [Hne Hw] Hs. induction w as [|c w IH]; [congruence|].
  simpl in Hw. inversion Hw as [|? ? Hc Hw']; subst.
  rewrite append_String. simpl. rewrite Hc.
  destruct w as [|c' w'].
  - rewrite append_Empty_l.
    destruct Hs as [->|(d & s' & -> & Hd)]; [reflexivity|].
    rewrite Hd. reflexivity.
  - simpl in Hw'. inversion Hw' as [|? ? Hc' _]; subst.
    rewrite append_String, Hc', <- append_String.
    rewrite IH; [reflexivity|discriminate|exact Hw'].
Qed.

Lemma split_join (ws : list string) :
  Forall word ws -> split (join " " ws) = ws.
Proof.
  induction 1 as [|w ws Hw Hws IH]; [reflexivity|].
  simpl. destruct ws as [|w' ws'].
  - rewrite <- (append_Empty_r w) at 1.
    rewrite split_word_app; [reflexivity|exact Hw|left; reflexivity].
  - rewrite split_word_app; [|exact Hw|].
    + rewrite append_String, append_Empty_l.
      change (split (String " " (join " " (w' :: ws'))))
        with (split (join " " (w' :: ws'))).
      rewrite IH. reflexivity.
    + right. rewrite append_String, append_Empty_l.
      eexists _, _. split; reflexivity.
Qed.

End SplitJoin.

Section ChunkText.
Import PyStr PySeq.

Lemma slice_lookup {A} (l : list A) (i cs j : Z) (x : A) :
  0 <= i -> i <= j < i + cs -> l !! Z.to_nat j = Some x ->
  x ∈ slice l i (i + cs).
Proof.
  intros Hi Hj Hx. pose proof (lookup_lt_Some _ _ _ Hx) as Hlt.
  unfold slice, norm.
  destruct (Z.ltb_spec i 0) as [?|_]; [lia|].
  destruct (Z.ltb_spec (i + cs) 0) as [?|_]; [lia|].
  apply list_elem_of_lookup. exists (Z.to_nat (j - i)).
  rewrite lookup_take_lt by lia.
  rewrite lookup_drop. rewrite <- Hx. f_equal. lia.
Qed.

Lemma slice_Forall {A} (P : A -> Prop) (l : list A) (lo hi : Z) :
  Forall P l -> Forall P (slice l lo hi).
Proof. intros H. unfold slice. apply Forall_take, Forall_drop, H. Qed.

Variables (words : list string) (chunk_size overlap : Z).
Hypothesis words_ok : Forall word words.
Hypothesis params_ok : chunk_size > overlap /\ overlap >= 0.

(** Loop invariant: started at index [i] with enough fuel, the loop
    exits, keeps what was accumulated, and every word from position
    [i] on lands in some chunk. *)
Lemma chunk_loop_covers (fuel : nat) :
  forall (i : Z) (acc : list string),
    0 <= i ->
    Z.max 0 (Z.of_nat (length words) - i) < Z.of_nat fuel ->
    exists res,
      chunk_loop fuel words chunk_size overlap i acc = Some res /\
      (forall c, c ∈ acc -> c ∈ res) /\
      (forall j w, i <= j -> words !! Z.to_nat j = Some w ->
                   exists c, c ∈ res /\ w ∈ split c).
Proof.
  induction fuel as [|fuel IH]; intros i acc Hi Hfuel; [lia|].
  simpl. destruct (Z.ltb_spec i (Z.of_nat (length words))) as [Hlt|Hge].
  - destruct (IH (i + (chunk_size - overlap))
                (acc ++ [join " " (slice words i (i + chunk_size))])%list)
      as (res & Hres & Hacc & Hcov); [lia|lia|].
    exists res. split; [exact Hres|]. split.
    + intros c Hc. apply Hacc, elem_of_app. left. exact Hc.
    + intros j w Hj Hw.
      destruct (Z.lt_ge_cases j (i + (chunk_size - overlap))) as [Hin|Hout].
      * exists (join " " (slice words i (i + chunk_size))). split.
        -- apply Hacc, elem_of_app. right. apply list_elem_of_singleton. reflexivity.
        -- rewrite split_join by (apply slice_Forall, words_ok).
           apply (slice_lookup words i chunk_size j w); [exact Hi|lia|exact Hw].
      * apply (Hcov j w); [lia|exact Hw].
  - exists acc. split; [reflexivity|]. split; [auto|].
    intros j w Hj Hw. apply lookup_lt_Some in Hw. lia.
Qed.

(** Shape of the result: the chunk at position [m] is the window that
    starts at word [m * (chunk_size - overlap)], and the loop stops at
    the first start index past the last word. *)
Lemma chunk_loop_shape (fuel : nat) :
  forall (i : Z) (acc res : list string),
    i = Z.of_nat (length acc) * (chunk_size - overlap) ->
    (forall (m : nat) c, acc !! m = Some c ->
       c = join " " (slice words (Z.of_nat m * (chunk_size - overlap))
                       (Z.of_nat m * (chunk_size - overlap) + chunk_size)) /\
       Z.of_nat m * (chunk_size - overlap) < Z.of_nat (length words)) ->
    chunk_loop fuel words chunk_size overlap i acc = Some res ->
    (forall (m : nat) c, res !! m = Some c ->
       c = join " " (slice words (Z.of_nat m * (chunk_size - overlap))
                       (Z.of_nat m * (chunk_size - overlap) + chunk_size)) /\
       Z.of_nat m * (chunk_size - overlap) < Z.of_nat (length words)) /\
    Z.of_nat (length words) <= Z.of_nat (length res) * (chunk_size - overlap).
Proof.
  induction fuel as [|fuel IH]; intros i acc res Hi Hacc Hres; [discriminate Hres|].
  simpl in Hres. destruct (Z.ltb_spec i (Z.of_nat (length words))) as [Hlt|Hge].
  - apply IH in Hres; [exact Hres| |].
    + rewrite length_app. simpl length. lia.
    + intros m c Hm. destruct (Nat.lt_ge_cases m (length acc)) as [Hin|Hout].
      * rewrite lookup_app_l in Hm by exact Hin. apply Hacc, Hm.
      * rewrite lookup_app_r in Hm by exact Hout.
        apply list_lookup_singleton_Some in Hm as [Hm <-].
        assert (m = length acc) as -> by lia.
        rewrite <- Hi. split; [reflexivity|exact Hlt].
  - injection Hres as <-. split; [exact Hacc|lia].
Qed.

End ChunkText.

(** C10. For every text and all parameters with [chunk_size > overlap >= 0],
    [chunk_text] terminates (a fuel of [len(words) + 1] iterations is
    enough for the loop to exit) and every word of the text occurs as a
    word of at least one returned chunk.  The start index advances by
    [chunk_size - overlap] per iteration: chunk [m] is the window of words
    from [m * (chunk_size - overlap)], and there is one chunk per start
    index below [len(words)]. *)
Theorem chunk_text_terminates_and_covers (text : string) (chunk_size overlap : Z) :
  chunk_size > overlap -> overlap >= 0 ->
  let words := PyStr.split text in
  let step := chunk_size - overlap in
  exists chunks,
    chunk_text (S (length words)) text chunk_size overlap = Some chunks /\
    (forall w, w ∈ words -> exists c, c ∈ chunks /\ w ∈ PyStr.split c) /\
    (forall (m : nat) c, chunks !! m = Some c ->
       c = PyStr.join " " (PySeq.slice words (Z.of_nat m * step)
                             (Z.of_nat m * step + chunk_size))) /\
    (forall m : nat, (m < length chunks)%nat <-> Z.of_nat m * step < Z.of_nat (length words)).
Proof.
  intros Hcs Hov words step. unfold chunk_text. fold words.
  destruct (chunk_loop_covers words chunk_size overlap
              (split_words text) (conj Hcs Hov)
              (S (length words)) 0 []) as (res & Hres & _ & Hcov);
    [lia|lia|].
  destruct (chunk_loop_shape words chunk_size overlap (S (length words)) 0 [] res)
    as [Hshape Hstop]; [reflexivity| |exact Hres|].
  { intros m c Hm. discriminate Hm. }
  exists res. split; [exact Hres|]. split; [|split].
  - intros w Hw. apply list_elem_of_lookup in Hw as [k Hk].
    apply (Hcov (Z.of_nat k)); [lia|]. rewrite Nat2Z.id. exact Hk.
  - intros m c Hm. apply (Hshape m c Hm).
  - intros m. split.
    + intros Hm. apply lookup_lt_is_Some in Hm as [c Hc]. apply (Hshape m c Hc).
    + intros Hm. fold step in Hstop. nia.
Qed.

(** The condition on the parameters is what makes the loop exit: with
    [chunk_size <= overlap] the start index never moves forward, and on
    a text with at least one word no number of iterations is enough. *)
Lemma chunk_loop_no_exit (fuel : nat) (words : list string) (chunk_size overlap : Z) :
  chunk_size <= overlap -> words <> [] ->
  forall (i : Z) (acc : list string),
    i <= 0 -> chunk_loop fuel words chunk_size overlap i acc = None.
Proof.
  intros Hstep Hne. induction fuel as [|fuel IH]; intros i acc Hi; [reflexivity|].
  simpl. destruct (Z.ltb_spec i (Z.of_nat (length words))) as [_|Hge].
  - apply IH. lia.
  - destruct words; [congruence|]. simpl length in Hge. lia.
Qed.

Lemma chunk_text_no_exit (fuel : nat) (text : string) (chunk_size overlap : Z) :
  chunk_size <= overlap -> PyStr.split text <> [] ->
  chunk_text fuel text chunk_size overlap = None.
Proof.
  intros Hstep Hne. unfold chunk_text.
  apply chunk_loop_no_exit; [exact Hstep|exact Hne|lia].
Qed.

(* ===================================================================== *)
(** ** The effect monad *)
(* ===================================================================== *)

Section Monad.
Context {A B : Type}.
Implicit Types (f : A -> M B).

Lemma bind_Return (tr : list event) (a : A) f :
  ((tr, Return a) : M A) ≫= f = ((tr ++ trace (f a))%list, result (f a)).
Proof. unfold mbind, M_bind, trace, result. destruct (f a). reflexivity. Qed.

Lemma bind_Raise (tr : list event) (e : exn) f :
  ((tr, Raise e) : M A) ≫= f = (tr, Raise e).
Proof. reflexivity. Qed.

Lemma mret_bind (a : A) f : mret a ≫= f = f a.
Proof. unfold mret, M_ret. rewrite bind_Return. destruct (f a). reflexivity. Qed.

Lemma raise_bind (e : exn) f : raise e ≫= f = raise e.
Proof. reflexivity. Qed.

Lemma call_Return_bind (ev : event) (a : A) f :
  call ev (Return a) ≫= f = (ev :: trace (f a), result (f a)).
Proof. unfold call. rewrite bind_Return. reflexivity. Qed.

Lemma trace_bind (m : M A) f :
  trace (m ≫= f)
  = (trace m ++ match result m with Return a => trace (f a) | Raise _ => [] end)%list.
Proof.
  destruct m as [tr [a|e]].
  - rewrite bind_Return. reflexivity.
  - simpl. rewrite app_nil_r. reflexivity.
Qed.

Lemma call_Raise_bind (ev : event) (e : exn) f :
  call ev (Raise e) ≫= f = ([ev], Raise e).
Proof. reflexivity. Qed.
End Monad.

Lemma index_0_cons {A} (x : A) (l : list A) : PySeq.index (x :: l) 0 = Some x.
Proof.
  unfold PySeq.index.
  destruct (Z.leb_spec 0 0) as [_|?]; [|lia].
  destruct (Z.ltb_spec 0 (Z.of_nat (length (x :: l)))) as [_|H]; [reflexivity|].
  simpl length in H. lia.
Qed.

(* ===================================================================== *)
(** ** The input-side guard rail *)
(* ===================================================================== *)

Lemma module_globals_unbound : module_globals !! "finance_keywords" = None.
Proof. vm_compute. reflexivity. Qed.

Section Guard.
Variables (np : Numpy) (g : gmap string value) (so : SetOrder).
Variables (query : string) (chunks : list string) (embedding_index : FaissIndex).
Variables (embeddings : list (list Q)) (embed_model : EmbedModel) (bm25 : Bm25).
Variables (tokenized_corpus : list (list string)) (cross_encoder : CrossEncoder).
Variables (top_k : Z) (kws : list string).

Hypothesis bound : g !! "finance_keywords" = Some (VStrList kws).

Let run := retrieve np g so query chunks embedding_index embeddings embed_model
             bm25 tokenized_corpus cross_encoder top_k.

(** With the name bound, a query without keyword is turned away before
    any collaborator is called. *)
Lemma retrieve_rejected :
  any_keyword kws query = false ->
  run = ([StWarning "Query does not appear to be related to financial data."],
         Return RNone).
Proof.
  intros Hno. unfold run, retrieve, load_global. rewrite bound. simpl or_raise.
  rewrite mret_bind. simpl iter_strings. rewrite mret_bind, Hno. reflexivity.
Qed.

(** With the name bound, a query with a keyword goes on to retrieval. *)
Lemma retrieve_passes_guard :
  any_keyword kws query = true ->
  run = retrieve_candidates np so query chunks embedding_index embed_model bm25
          cross_encoder top_k.
Proof.
  intros Hyes. unfold run, retrieve, load_global. rewrite bound. simpl or_raise.
  rewrite mret_bind. simpl iter_strings. rewrite mret_bind, Hyes. reflexivity.
Qed.

(** After the two retrievers: an empty fusion ends the query with the
    sentinel, anything else is handed to the reranker. *)
Lemma retrieve_candidates_fused (tr : list event) (fa fb : list string) :
  retrieve_both np query chunks embedding_index embed_model bm25 top_k
    = (tr, Return (fa, fb)) ->
  retrieve_candidates np so query chunks embedding_index embed_model bm25
    cross_encoder top_k
  = match candidate_set so fa fb with
    | [] => (tr, Return no_results)
    | _ :: _ =>
        let r := rerank_and_flag query (candidate_set so fa fb) cross_encoder in
        ((tr ++ trace r)%list, result r)
    end.
Proof.
  intros Hboth. unfold retrieve_candidates. rewrite Hboth, bind_Return.
  destruct (candidate_set so fa fb) as [|c cs]; simpl.
  - rewrite app_nil_r. reflexivity.
  - reflexivity.
Qed.
End Guard.

(** The reranking stage, case by case. *)
Section Rerank.
Variables (query : string) (candidates : list string) (cross_encoder : CrossEncoder).

Let cross_inputs := map (fun cand => (query, cand)) candidates.

Lemma rerank_scorer_fails (e : exn) :
  predict cross_encoder cross_inputs = Raise e ->
  rerank_and_flag query candidates cross_encoder
    = ([CallPredict cross_inputs], Raise e).
Proof. intros H. unfold rerank_and_flag. fold cross_inputs. rewrite H. reflexivity. Qed.

Lemma rerank_low (scores : list Q) top s rest :
  predict cross_encoder cross_inputs = Return scores ->
  ranked_candidates candidates scores = (top, s) :: rest ->
  Qltb s (3 # 10) = true ->
  rerank_and_flag query candidates cross_encoder
    = ([CallPredict cross_inputs; StInfo "Low confidence in retrieved answer."],
       Return (RTuple top s ((top, s) :: rest))).
Proof.
  intros H Hr Hs. unfold rerank_and_flag. fold cross_inputs.
  rewrite H, call_Return_bind, Hr, index_0_cons. simpl or_raise.
  rewrite mret_bind, Hs. reflexivity.
Qed.

Lemma rerank_confident (scores : list Q) top s rest :
  predict cross_encoder cross_inputs = Return scores ->
  ranked_candidates candidates scores = (top, s) :: rest ->
  Qltb s (3 # 10) = false ->
  rerank_and_flag query candidates cross_encoder
    = ([CallPredict cross_inputs], Return (RTuple top s ((top, s) :: rest))).
Proof.
  intros H Hr Hs. unfold rerank_and_flag. fold cross_inputs.
  rewrite H, call_Return_bind, Hr, index_0_cons. simpl or_raise.
  rewrite mret_bind, Hs. reflexivity.
Qed.
End Rerank.


(* ===================================================================== *)
(** ** Stable sorting *)
(* ===================================================================== *)

Section StableSortFacts.
Context {A : Type} (leb : A -> A -> bool).
Hypothesis leb_total : forall x y, leb x y = false -> leb y x = true.
Hypothesis leb_trans : forall x y z, leb x y = true -> leb y z = true -> leb x z = true.

Lemma insert_sorted_perm (x : A) (l : list A) : insert_sorted leb x l ≡ₚ x :: l.
Proof.
  induction l as [|y l IH]; simpl; [reflexivity|].
  destruct (leb x y); [reflexivity|].
  rewrite IH. apply Permutation_swap.
Qed.

Lemma stable_sort_perm (l : list A) : stable_sort leb l ≡ₚ l.
Proof.
  induction l as [|x l IH]; simpl; [reflexivity|].
  rewrite insert_sorted_perm, IH. reflexivity.
Qed.

Lemma stable_sort_length (l : list A) : length (stable_sort leb l) = length l.
Proof. apply Permutation_length, stable_sort_perm. Qed.

(** Elements of a class [p] that [x] is never moved past stay where
    they were relative to [x]. *)
Lemma filter_insert_sorted (p : A -> bool) (x : A) (l : list A) :
  (p x = true -> forall y, leb x y = false -> p y = false) ->
  List.filter p (insert_sorted leb x l) = List.filter p (x :: l).
Proof.
  intros Hp. induction l as [|y l IH]; [reflexivity|].
  simpl insert_sorted. destruct (leb x y) eqn:Hxy; [reflexivity|].
  simpl List.filter in *. rewrite IH.
  destruct (p x) eqn:Hpx; [|reflexivity].
  rewrite (Hp eq_refl y Hxy). reflexivity.
Qed.

Lemma filter_stable_sort (p : A -> bool) (l : list A) :
  (forall x y, p x = true -> leb x y = false -> p y = false) ->
  List.filter p (stable_sort leb l) = List.filter p l.
Proof.
  intros Hp. induction l as [|x l IH]; [reflexivity|].
  simpl stable_sort. rewrite filter_insert_sorted by (intros H y; apply Hp, H).
  simpl. rewrite IH. reflexivity.
Qed.

Lemma stable_sort_sorted (l : list A) :
  StronglySorted (fun x y => leb x y = true) (stable_sort leb l).
Proof.
  induction l as [|x l IH]; simpl; [constructor|].
  generalize dependent (stable_sort leb l). clear l.
  induction l as [|y l IHl]; intros Hl; simpl; [repeat constructor|].
  apply StronglySorted_inv in Hl as [Hl Hy].
  destruct (leb x y) eqn:E.
  - constructor; [constructor; assumption|].
    constructor; [exact E|].
    rewrite Forall_forall in *. intros z Hz.
    apply (leb_trans x y z E), (Hy z Hz).
  - constructor; [apply IHl, Hl|].
    rewrite insert_sorted_perm. constructor; [apply leb_total, E|exact Hy].
Qed.
End StableSortFacts.

Lemma StronglySorted_weaken_in {A} (R R' : A -> A -> Prop) (l : list A) :
  (forall x y, x ∈ l -> y ∈ l -> R x y -> R' x y) ->
  StronglySorted R l -> StronglySorted R' l.
Proof.
  induction l as [|a l IH]; intros HR Hl; [constructor|].
  apply StronglySorted_inv in Hl as [Hl Ha]. constructor.
  - apply IH; [|exact Hl]. intros x y Hx Hy. apply HR; right; assumption.
  - rewrite Forall_forall in *. intros y Hy.
    apply HR; [left|right; exact Hy|apply Ha, Hy].
Qed.

Lemma StronglySorted_weaken {A} (R R' : A -> A -> Prop) (l : list A) :
  (forall x y, R x y -> R' x y) ->
  StronglySorted R l -> StronglySorted R' l.
Proof. intros HR. apply StronglySorted_weaken_in. intros x y _ _. apply HR. Qed.

(** Facts on the order of scores. *)
Lemma Qle_bool_total (x y : Q) : Qle_bool x y = false -> Qle_bool y x = true.
Proof.
  intros H. apply Qle_bool_iff. apply Qlt_le_weak, Qnot_le_lt.
  intros Hle. apply Qle_bool_iff in Hle. congruence.
Qed.

Lemma Qle_bool_trans (x y z : Q) :
  Qle_bool x y = true -> Qle_bool y z = true -> Qle_bool x z = true.
Proof. rewrite !Qle_bool_iff. apply Qle_trans. Qed.

(* ===================================================================== *)
(** ** Re-ranking *)
(* ===================================================================== *)

Lemma index_0_nil {A} : PySeq.index (@nil A) 0 = None.
Proof. reflexivity. Qed.

(** Whatever [rerank_and_flag] returns is the sorted zip of the
    candidates with the scores the cross-encoder gave. *)
Lemma rerank_and_flag_inv (query : string) (candidates : list string)
    (cross_encoder : CrossEncoder) (v : retval) :
  result (rerank_and_flag query candidates cross_encoder) = Return v ->
  exists scores top s rest,
    predict cross_encoder (map (fun cand => (query, cand)) candidates) = Return scores /\
    ranked_candidates candidates scores = (top, s) :: rest /\
    v = RTuple top s ((top, s) :: rest).
Proof.
  intros H.
  destruct (predict cross_encoder (map (fun cand => (query, cand)) candidates))
    as [scores|e] eqn:Hp.
  - destruct (ranked_candidates candidates scores) as [|[top s] rest] eqn:Hr.
    + unfold rerank_and_flag in H. rewrite Hp, call_Return_bind, Hr in H.
      rewrite index_0_nil in H. discriminate H.
    + exists scores, top, s, rest. split; [reflexivity|]. split; [exact Hr|].
      destruct (Qltb s (3 # 10)) eqn:Hs.
      * rewrite (rerank_low _ _ _ _ _ _ _ Hp Hr Hs) in H. simpl in H. congruence.
      * rewrite (rerank_confident _ _ _ _ _ _ _ Hp Hr Hs) in H. simpl in H. congruence.
  - rewrite (rerank_scorer_fails _ _ _ _ Hp) in H. discriminate H.
Qed.

Lemma sorted_desc_spec {A} (key : A -> Q) (l : list A) :
  sorted_desc key l ≡ₚ l /\
  StronglySorted (fun x y => (key y <= key x)%Q) (sorted_desc key l) /\
  forall s : Q,
    List.filter (fun x => Qeq_bool (key x) s) (sorted_desc key l)
    = List.filter (fun x => Qeq_bool (key x) s) l.
Proof.
  unfold sorted_desc. split; [apply stable_sort_perm|]. split.
  - eapply StronglySorted_weaken; [|apply stable_sort_sorted].
    + intros x y H. apply Qle_bool_iff in H. exact H.
    + intros x y. apply Qle_bool_total.
    + intros x y z Hxy Hyz. exact (Qle_bool_trans _ _ _ Hyz Hxy).
  - intros s. apply filter_stable_sort.
    intros x y Hx Hxy. apply Qeq_bool_iff in Hx.
    destruct (Qeq_bool (key y) s) eqn:Hy; [|reflexivity].
    apply Qeq_bool_iff in Hy. exfalso.
    assert (Qle_bool (key y) (key x) = true) as Hle; [|congruence].
    apply Qle_bool_iff. rewrite Hx, Hy. apply Qle_refl.
Qed.


(* ===================================================================== *)
(** ** Lexical top-k *)
(* ===================================================================== *)

Lemma StronglySorted_reverse {A} (R : A -> A -> Prop) (l : list A) :
  StronglySorted R l -> StronglySorted (flip R) (reverse l).
Proof.
  induction l as [|x l IH]; intros Hl; [constructor|].
  apply StronglySorted_inv in Hl as [Hl Hx].
  rewrite reverse_cons. apply StronglySorted_app.
  split; [|split; [apply IH, Hl|repeat constructor]].
  intros y z Hy Hz. apply list_elem_of_singleton in Hz as ->.
  rewrite elem_of_reverse in Hy. rewrite Forall_forall in Hx. apply Hx, Hy.
Qed.

Lemma slice_to_take {A} (l : list A) (k : Z) :
  0 <= k -> PySeq.slice_to l k = take (Z.to_nat k) l.
Proof.
  intros Hk. unfold PySeq.slice_to, PySeq.slice, PySeq.norm.
  destruct (Z.ltb_spec 0 0) as [?|_]; [lia|].
  destruct (Z.ltb_spec k 0) as [?|_]; [lia|].
  replace (Z.to_nat (Z.min 0 (Z.of_nat (length l)))) with 0%nat by lia.
  rewrite drop_0.
  destruct (Z.le_ge_cases k (Z.of_nat (length l))) as [Hle|Hge].
  - f_equal. lia.
  - rewrite !take_ge by lia. reflexivity.
Qed.

Section TopK.
Variables (np : Numpy) (bm25_scores : list Q).

Let n := Z.of_nat (length bm25_scores).

Lemma argsort_reversed_sorted :
  StronglySorted (score_not_below bm25_scores) (reverse (argsort np bm25_scores)).
Proof.
  exact (StronglySorted_reverse _ _ (argsort_ascending np bm25_scores)).
Qed.

Lemma argsort_reversed_elem (j : Z) :
  j ∈ reverse (argsort np bm25_scores) <-> 0 <= j < n.
Proof.
  rewrite elem_of_reverse, (argsort_positions np bm25_scores), elem_of_seqZ.
  unfold n. lia.
Qed.

Lemma argsort_length : length (argsort np bm25_scores) = length bm25_scores.
Proof.
  rewrite (Permutation_length (argsort_positions np bm25_scores)), length_seqZ.
  lia.
Qed.

Lemma argsort_NoDup : NoDup (argsort np bm25_scores).
Proof. rewrite (argsort_positions np bm25_scores). apply NoDup_seqZ. Qed.
End TopK.

(** C8, as the code has it. For every numpy, every score list and every
    [k >= 0], the lexical top-k is made of [min k N] distinct chunk
    positions, the list is in descending score order, and no position
    left out scores higher than one that is listed.  Nothing more is
    fixed: the list is the first [k] of [np.argsort]'s result read
    backwards, so positions with equal scores come in the reverse of the
    order [np.argsort] leaves them in, and that order is the sort's own. *)
Theorem bm25_top_indices_spec (np : Numpy) (bm25_scores : list Q) (top_k : Z) :
  0 <= top_k ->
  let n := Z.of_nat (length bm25_scores) in
  let top := bm25_top_indices np bm25_scores top_k in
  length top = Z.to_nat (Z.min top_k n) /\
  NoDup top /\
  (forall i, i ∈ top -> 0 <= i < n) /\
  StronglySorted (score_not_below bm25_scores) top /\
  (forall i j, i ∈ top -> 0 <= j < n -> j ∉ top ->
               (score_at bm25_scores j <= score_at bm25_scores i)%Q) /\
  top = take (Z.to_nat top_k) (reverse (argsort np bm25_scores)).
Proof.
  intros Hk n top. unfold top, bm25_top_indices. rewrite slice_to_take by exact Hk.
  pose proof (argsort_reversed_sorted np bm25_scores) as Hsorted.
  rewrite <- (take_drop (Z.to_nat top_k) (reverse (argsort np bm25_scores))) in Hsorted.
  split; [|split; [|split; [|split; [|split; [|reflexivity]]]]].
  - rewrite length_take, length_reverse, argsort_length. unfold n. lia.
  - apply (sublist_NoDup _ (reverse (argsort np bm25_scores))); [|apply sublist_take].
    rewrite reverse_Permutation. apply argsort_NoDup.
  - intros i Hi. apply (argsort_reversed_elem np).
    rewrite <- (take_drop (Z.to_nat top_k)). apply elem_of_app. left. exact Hi.
  - eapply StronglySorted_app_1_l, Hsorted.
  - intros i j Hi Hj Hout.
    apply (StronglySorted_app_1_elem_of _ _ _ i j Hsorted Hi).
    apply (argsort_reversed_elem np) in Hj.
    rewrite <- (take_drop (Z.to_nat top_k)) in Hj.
    apply elem_of_app in Hj as [Hj|Hj]; [contradiction|exact Hj].
Qed.

(** C8, as the spec words it, fails.  Of the five scores 2, 2, 2, 2, 0
    the four equal ones are listed as positions 3, 1, 2, 0 when the sort
    orders them as the default kind has been seen to: not by ascending
    position. *)
Lemma bm25_ties_not_ascending :
  bm25_top_indices Demo.numpy_unstable [2; 2; 2; 2; 0]%Q 5 = [3; 1; 2; 0; 4] /\
  ~ ties_ascending [2; 2; 2; 2; 0]%Q
      (bm25_top_indices Demo.numpy_unstable [2; 2; 2; 2; 0]%Q 5).
Proof.
  split; [reflexivity|].
  intros H. specialize (H 0%nat 1%nat 3 1).
  assert (3 < 1) as Habs; [|lia].
  apply H; [lia|reflexivity|reflexivity|].
  vm_compute. reflexivity.
Qed.

(** Nor do they come by descending position whatever the numpy: a sort
    that leaves equal scores in position order lists the same four as
    3, 2, 1, 0.  The two lists differ, so the order of equal scores is
    not a function of the scores. *)
Lemma bm25_tie_order_varies :
  bm25_top_indices Demo.numpy [2; 2; 2; 2; 0]%Q 5 = [3; 2; 1; 0; 4] /\
  bm25_top_indices Demo.numpy [2; 2; 2; 2; 0]%Q 5
  <> bm25_top_indices Demo.numpy_unstable [2; 2; 2; 2; 0]%Q 5.
Proof. split; [reflexivity|]. intros H. vm_compute in H. discriminate H. Qed.

(* ===================================================================== *)
(** ** The guard rail as it runs *)
(* ===================================================================== *)

(** C1. In the module as written no query gets past line 136: the name
    [finance_keywords] is bound only inside the nested [def], so for
    every query, with or without a finance keyword, [retrieve] raises
    [NameError] before it warns, returns or calls any collaborator. *)
Theorem retrieve_raises_NameError (np : Numpy) (so : SetOrder) (query : string)
    (chunks : list string) (embedding_index : FaissIndex)
    (embeddings : list (list Q)) (embed_model : EmbedModel) (bm25 : Bm25)
    (tokenized_corpus : list (list string)) (cross_encoder : CrossEncoder)
    (top_k : Z) :
  retrieve np module_globals so query chunks embedding_index embeddings embed_model
    bm25 tokenized_corpus cross_encoder top_k
  = ([], Raise (NameError "finance_keywords")).
Proof.
  unfold retrieve, load_global. rewrite module_globals_unbound. reflexivity.
Qed.

(** The first thing a query does once past the guard is to be embedded. *)
Lemma retrieve_candidates_first_event (np : Numpy) (so : SetOrder) (query : string)
    (chunks : list string) (embedding_index : FaissIndex) (embed_model : EmbedModel)
    (bm25 : Bm25) (cross_encoder : CrossEncoder) (top_k : Z) :
  exists tl,
    trace (retrieve_candidates np so query chunks embedding_index embed_model bm25
             cross_encoder top_k) = CallEncode [query] :: tl.
Proof.
  unfold retrieve_candidates, retrieve_both.
  rewrite !trace_bind. simpl. eexists. reflexivity.
Qed.

Lemma any_keyword_false_iff (kws : list string) (query : string) :
  any_keyword kws query = false
  <-> Forall (fun word => PyStr.contains word (PyStr.lower query) = false) kws.
Proof.
  unfold any_keyword. induction kws as [|w ws IH]; simpl.
  - split; [constructor|reflexivity].
  - rewrite orb_false_iff, Forall_cons, IH. reflexivity.
Qed.

Lemma any_keyword_true (kws : list string) (query : string) :
  Exists (fun word => PyStr.contains word (PyStr.lower query) = true) kws ->
  any_keyword kws query = true.
Proof.
  unfold any_keyword. induction 1 as [w ws Hw|w ws _ IH]; simpl.
  - rewrite Hw. reflexivity.
  - rewrite IH. apply orb_true_r.
Qed.

(** Were the name bound at module level, the guard would do what its
    comments describe: reject exactly the queries that contain no
    keyword, calling nothing, and pass the others on. *)
Lemma retrieve_guard_when_bound (np : Numpy) (g : gmap string value) (so : SetOrder)
    (query : string) (chunks : list string) (embedding_index : FaissIndex)
    (embeddings : list (list Q)) (embed_model : EmbedModel) (bm25 : Bm25)
    (tokenized_corpus : list (list string)) (cross_encoder : CrossEncoder)
    (top_k : Z) (kws : list string) :
  g !! "finance_keywords" = Some (VStrList kws) ->
  let run := retrieve np g so query chunks embedding_index embeddings embed_model
               bm25 tokenized_corpus cross_encoder top_k in
  (run = ([StWarning "Query does not appear to be related to financial data."],
          Return RNone)
   <-> Forall (fun word => PyStr.contains word (PyStr.lower query) = false) kws) /\
  (Exists (fun word => PyStr.contains word (PyStr.lower query) = true) kws ->
   run = retrieve_candidates np so query chunks embedding_index embed_model bm25
           cross_encoder top_k).
Proof.
  intros Hb run.
  pose proof (any_keyword_false_iff kws query) as Hnone.
  pose proof (any_keyword_true kws query) as Hsome.
  split.
  - rewrite <- Hnone. split.
    + intros Hrun. destruct (any_keyword kws query) eqn:Hany; [|reflexivity].
      exfalso. unfold run in Hrun.
      rewrite (retrieve_passes_guard np g so query chunks embedding_index embeddings
                 embed_model bm25 tokenized_corpus cross_encoder top_k kws Hb Hany)
        in Hrun.
      destruct (retrieve_candidates_first_event np so query chunks embedding_index
                  embed_model bm25 cross_encoder top_k) as [tl Htl].
      rewrite Hrun in Htl. discriminate Htl.
    + apply retrieve_rejected, Hb.
  - intros Hex. apply (retrieve_passes_guard _ _ _ _ _ _ _ _ _ _ _ _ kws Hb), Hsome, Hex.
Qed.

(** The spec's scenario query, after the indexes of the sample corpus
    have been built: as the module is written, and with the keyword list
    bound at module level. *)
Example capital_of_France_as_written :
  Demo.run module_globals Demo.cross_encoder "What is the capital of France?" 5
  = ([CallEncode Demo.chunks], Raise (NameError "finance_keywords")).
Proof. vm_compute. reflexivity. Qed.

Example capital_of_France_when_bound :
  Demo.run Demo.globals_with_keywords Demo.cross_encoder
    "What is the capital of France?" 5
  = ([CallEncode Demo.chunks;
      StWarning "Query does not appear to be related to financial data."],
     Return RNone).
Proof. vm_compute. reflexivity. Qed.

(* ===================================================================== *)
(** ** Fusion *)
(* ===================================================================== *)

Lemma candidate_set_nil_iff (so : SetOrder) (fa fb : list string) :
  candidate_set so fa fb = [] <-> fa = [] /\ fb = [].
Proof.
  unfold candidate_set. split.
  - intros H. apply app_eq_nil.
    destruct (fa ++ fb)%list as [|x l] eqn:E; [reflexivity|].
    assert (x ∈ set_iter so (x :: l)) as Hx by (apply set_iter_elem; left).
    rewrite H in Hx. inversion Hx.
  - intros [-> ->]. simpl.
    destruct (set_iter so []) as [|x l] eqn:E; [reflexivity|].
    assert (x ∈ ([] : list string)) as Hx by (apply (set_iter_elem so); rewrite E; left).
    inversion Hx.
Qed.

(** C6. The two result sequences fuse to nothing exactly when both are
    empty.  In that case a query past the guard ends with the sentinel tuple
    as an ordinary return value, and nothing more is called; when either
    sequence is non-empty the fused candidates go to the reranker. *)
Theorem fusion_empty_iff_both_empty (np : Numpy) (g : gmap string value) (so : SetOrder)
    (query : string) (chunks : list string) (embedding_index : FaissIndex)
    (embeddings : list (list Q)) (embed_model : EmbedModel) (bm25 : Bm25)
    (tokenized_corpus : list (list string)) (cross_encoder : CrossEncoder)
    (top_k : Z) (kws : list string) (tr : list event) (fa fb : list string) :
  g !! "finance_keywords" = Some (VStrList kws) ->
  any_keyword kws query = true ->
  retrieve_both np query chunks embedding_index embed_model bm25 top_k
    = (tr, Return (fa, fb)) ->
  let run := retrieve np g so query chunks embedding_index embeddings embed_model
               bm25 tokenized_corpus cross_encoder top_k in
  (candidate_set so fa fb = [] <-> fa = [] /\ fb = []) /\
  (fa = [] /\ fb = [] -> run = (tr, Return no_results)) /\
  (~ (fa = [] /\ fb = []) ->
   let r := rerank_and_flag query (candidate_set so fa fb) cross_encoder in
   run = ((tr ++ trace r)%list, result r)).
Proof.
  intros Hb Hany Hboth run.
  split; [apply candidate_set_nil_iff|].
  unfold run.
  rewrite (retrieve_passes_guard np g so query chunks embedding_index embeddings
             embed_model bm25 tokenized_corpus cross_encoder top_k kws Hb Hany).
  rewrite (retrieve_candidates_fused np so query chunks embedding_index embed_model
             bm25 cross_encoder top_k tr fa fb Hboth).
  split.
  - intros Hempty. apply (candidate_set_nil_iff so) in Hempty.
    rewrite Hempty. reflexivity.
  - intros Hne. destruct (candidate_set so fa fb) as [|c cs] eqn:E.
    + exfalso. apply Hne, (candidate_set_nil_iff so), E.
    + reflexivity.
Qed.

(* ===================================================================== *)
(** ** The output-side guard rail and scorer failures *)
(* ===================================================================== *)



(** C7, as the code has it. When the cross-encoder raises during
    re-ranking, [retrieve] ends with that same exception right after the
    call: no tuple is returned, in fusion order or otherwise. *)
Theorem scorer_failure_propagates (np : Numpy) (g : gmap string value) (so : SetOrder)
    (query : string) (chunks : list string) (embedding_index : FaissIndex)
    (embeddings : list (list Q)) (embed_model : EmbedModel) (bm25 : Bm25)
    (tokenized_corpus : list (list string)) (cross_encoder : CrossEncoder)
    (top_k : Z) (kws : list string) (tr : list event) (fa fb : list string)
    (e : exn) :
  g !! "finance_keywords" = Some (VStrList kws) ->
  any_keyword kws query = true ->
  retrieve_both np query chunks embedding_index embed_model bm25 top_k
    = (tr, Return (fa, fb)) ->
  candidate_set so fa fb <> [] ->
  predict cross_encoder (map (fun cand => (query, cand)) (candidate_set so fa fb))
    = Raise e ->
  retrieve np g so query chunks embedding_index embeddings embed_model
    bm25 tokenized_corpus cross_encoder top_k
  = ((tr ++ [CallPredict (map (fun cand => (query, cand)) (candidate_set so fa fb))])%list,
     Raise e).
Proof.
  intros Hb Hany Hboth Hne Hp.
  rewrite (retrieve_passes_guard np g so query chunks embedding_index embeddings
             embed_model bm25 tokenized_corpus cross_encoder top_k kws Hb Hany).
  rewrite (retrieve_candidates_fused np so query chunks embedding_index embed_model
             bm25 cross_encoder top_k tr fa fb Hboth).
  destruct (candidate_set so fa fb) as [|c cs] eqn:E; [congruence|].
  rewrite (rerank_scorer_fails query (c :: cs) cross_encoder e Hp). reflexivity.
Qed.

(** C7, as the spec words it, fails: with the keyword list bound and a
    cross-encoder whose model is unavailable, the query on the sample
    corpus ends in the scorer's exception, and returns nothing. *)
Lemma scorer_failure_aborts_query :
  result (Demo.run Demo.globals_with_keywords Demo.failing_cross_encoder
            "What was the revenue growth?" 5)
  = Raise (ExternalError "model unavailable") /\
  ~ exists v, result (Demo.run Demo.globals_with_keywords Demo.failing_cross_encoder
                        "What was the revenue growth?" 5) = Return v.
Proof.
  assert (result (Demo.run Demo.globals_with_keywords Demo.failing_cross_encoder
                    "What was the revenue growth?" 5)
          = Raise (ExternalError "model unavailable")) as H
    by (vm_compute; reflexivity).
  split; [exact H|]. intros [v Hv]. rewrite H in Hv. discriminate Hv.
Qed.

(* ===================================================================== *)
(** ** What fusion removes *)
(* ===================================================================== *)

Lemma chunks_at_Return (chunks : list string) (ids : list Z) (texts : list string) :
  result (chunks_at chunks ids) = Return texts <->
  Forall2 (fun i t => PySeq.index chunks i = Some t) ids texts.
Proof.
  unfold chunks_at. rewrite <- mapM_Some.
  destruct (mapM (PySeq.index chunks) ids) as [l|]; simpl.
  - split; congruence.
  - split; discriminate.
Qed.

Section DistinctThroughLookup.
Context {A B : Type} `{EqDecision A, EqDecision B} (f : A -> option B).

Lemma Forall2_elem_l (l : list A) (k : list B) (i : A) :
  Forall2 (fun i t => f i = Some t) l k -> i ∈ l -> exists t, t ∈ k /\ f i = Some t.
Proof.
  induction 1 as [|j t l k Hj _ IH]; intros Hi; [inversion Hi|].
  apply elem_of_cons in Hi as [->|Hi].
  - exists t. split; [left|exact Hj].
  - destruct (IH Hi) as (t' & Ht' & Hf). exists t'. split; [right; exact Ht'|exact Hf].
Qed.

Lemma Forall2_elem_r (l : list A) (k : list B) (t : B) :
  Forall2 (fun i t => f i = Some t) l k -> t ∈ k -> exists i, i ∈ l /\ f i = Some t.
Proof.
  induction 1 as [|j t' l k Hj _ IH]; intros Ht; [inversion Ht|].
  apply elem_of_cons in Ht as [->|Ht].
  - exists j. split; [left|exact Hj].
  - destruct (IH Ht) as (i & Hi & Hf). exists i. split; [right; exact Hi|exact Hf].
Qed.

(** Where the lookup tells the keys apart, as many distinct values as
    distinct keys. *)
Lemma remove_dups_length_inj (l : list A) (k : list B) :
  Forall2 (fun i t => f i = Some t) l k ->
  (forall i j, i ∈ l -> j ∈ l -> f i = f j -> i = j) ->
  length (remove_dups k) = length (remove_dups l).
Proof.
  induction 1 as [|i t l k Hi Hlk IH]; intros Hinj; [reflexivity|].
  assert (length (remove_dups k) = length (remove_dups l)) as IH'.
  { apply IH. intros a b Ha Hb. apply Hinj; right; assumption. }
  simpl. destruct (decide_rel elem_of i l) as [Hin|Hout];
    destruct (decide_rel elem_of t k) as [Hin'|Hout']; simpl; try congruence.
  - exfalso. apply Hout'.
    destruct (Forall2_elem_l l k i Hlk Hin) as (t' & Ht' & Hf). congruence.
  - exfalso. apply Hout.
    destruct (Forall2_elem_r l k t Hlk Hin') as (j & Hj & Hf).
    rewrite (Hinj i j); [exact Hj|left|right; exact Hj|congruence].
Qed.
End DistinctThroughLookup.

Lemma NoDup_filter_eq_length (l : list string) (t : string) :
  NoDup l -> t ∈ l -> length (filter (fun x => x = t) l) = 1%nat.
Proof.
  induction 1 as [|x l Hx Hl IH]; intros Ht; [inversion Ht|].
  rewrite filter_cons. destruct (decide (x = t)) as [->|Hne].
  - simpl. f_equal. apply length_zero_iff_nil.
    apply elem_of_nil_inv. intros y Hy.
    apply list_elem_of_filter in Hy as [-> Hy]. contradiction.
  - apply IH. apply elem_of_cons in Ht as [->|Ht]; [contradiction|exact Ht].
Qed.

(** C2, as the code has it. Fusion is a union by chunk text: the fused
    list has no repeated text, holds exactly the texts retrieved by
    either retriever, and is as long as there are distinct texts among
    them; a chunk retrieved by both appears exactly once.  The size is
    the number of distinct chunk positions when the retrieved positions
    hold pairwise different texts. *)
Theorem candidate_set_union_by_text (so : SetOrder) (chunks : list string)
    (a b : list Z) (fa fb : list string) :
  result (chunks_at chunks a) = Return fa ->
  result (chunks_at chunks b) = Return fb ->
  let fused := candidate_set so fa fb in
  NoDup fused /\
  (forall t, t ∈ fused <-> t ∈ fa \/ t ∈ fb) /\
  length fused = length (remove_dups (fa ++ fb)) /\
  (forall i t, i ∈ a -> i ∈ b -> PySeq.index chunks i = Some t ->
               length (filter (fun x => x = t) fused) = 1%nat) /\
  ((forall i j, i ∈ (a ++ b)%list -> j ∈ (a ++ b)%list ->
                PySeq.index chunks i = PySeq.index chunks j -> i = j) ->
   length fused = length (remove_dups (a ++ b))).
Proof.
  intros Ha Hb fused. apply chunks_at_Return in Ha, Hb.
  assert (NoDup fused) as Hnd by apply set_iter_NoDup.
  assert (forall t, t ∈ fused <-> t ∈ fa \/ t ∈ fb) as Hel.
  { intros t. unfold fused, candidate_set. rewrite set_iter_elem. apply elem_of_app. }
  assert (length fused = length (remove_dups (fa ++ fb))) as Hlen.
  { apply Permutation_length, NoDup_Permutation;
      [exact Hnd|apply NoDup_remove_dups|].
    intros t. rewrite elem_of_remove_dups, elem_of_app. apply Hel. }
  split; [exact Hnd|]. split; [exact Hel|]. split; [exact Hlen|]. split.
  - intros i t Hia _ Hi. apply NoDup_filter_eq_length; [exact Hnd|].
    apply Hel. left.
    destruct (Forall2_elem_l _ _ _ i Ha Hia) as (t' & Ht' & Hf). congruence.
  - intros Hinj. rewrite Hlen.
    apply (remove_dups_length_inj (PySeq.index chunks)); [|exact Hinj].
    apply Forall2_app; assumption.
Qed.

(** C2, as the spec words it, fails: chunking a text that repeats itself
    gives two chunks with one text; the first retrieved by one retriever
    and the second by the other fuse into a single candidate, against
    two distinct chunk ids. *)
Lemma fused_size_below_distinct_ids :
  chunk_text 5 "cash flow cash flow" 2 0 = Some ["cash flow"; "cash flow"] /\
  result (chunks_at ["cash flow"; "cash flow"] [0]) = Return ["cash flow"] /\
  result (chunks_at ["cash flow"; "cash flow"] [1]) = Return ["cash flow"] /\
  length (candidate_set last_occurrence_order ["cash flow"] ["cash flow"]) = 1%nat /\
  length (remove_dups ([0] ++ [1] : list Z)) = 2%nat.
Proof. vm_compute. repeat split; reflexivity. Qed.

(* ===================================================================== *)
(** ** Repeating a query: set order and ties *)
(* ===================================================================== *)

Lemma StronglySorted_NoDup_strict {A} (R : A -> A -> Prop) (l : list A) :
  StronglySorted R l -> NoDup l -> StronglySorted (fun x y => R x y /\ x <> y) l.
Proof.
  induction 1 as [|x l Hl IH Hx]; intros Hnd; [constructor|].
  apply NoDup_cons in Hnd as [Hout Hnd]. constructor; [apply IH, Hnd|].
  rewrite Forall_forall in *. intros y Hy. split; [apply Hx, Hy|].
  intros ->. contradiction.
Qed.

#[local] Instance Qgt_key_trans {A} (key : A -> Q) :
  Transitive (fun x y : A => (key y < key x)%Q).
Proof. intros x y z Hxy Hyz. exact (Qlt_trans _ _ _ Hyz Hxy). Qed.

#[local] Instance Qgt_key_antisym {A} (key : A -> Q) :
  AntiSymm (=) (fun x y : A => (key y < key x)%Q).
Proof.
  intros x y Hxy Hyx. exfalso.
  exact (Qlt_irrefl _ (Qlt_trans _ _ _ Hxy Hyx)).
Qed.

(** Without ties the descending sort does not depend on the order the
    elements came in. *)
Lemma sorted_desc_perm_unique {A} (key : A -> Q) (l1 l2 : list A) :
  l1 ≡ₚ l2 -> NoDup l1 ->
  (forall x y, x ∈ l1 -> y ∈ l1 -> (key x == key y)%Q -> x = y) ->
  sorted_desc key l1 = sorted_desc key l2.
Proof.
  intros Hperm Hnd Hinj.
  assert (forall l, l ≡ₚ l1 ->
            StronglySorted (fun x y => (key y < key x)%Q) (sorted_desc key l)) as Hstrict.
  { intros l Hl. destruct (sorted_desc_spec key l) as (Hp & Hs & _).
    apply (StronglySorted_weaken_in (fun x y => (key y <= key x)%Q /\ x <> y)).
    - intros x y Hx Hy [Hle Hne]. rewrite Hp, Hl in Hx, Hy.
      apply Qle_lt_or_eq in Hle as [Hlt|Heq]; [exact Hlt|].
      exfalso. apply Hne. symmetry. apply Hinj; assumption.
    - apply StronglySorted_NoDup_strict; [exact Hs|]. rewrite Hp, Hl. exact Hnd. }
  apply (StronglySorted_unique (fun x y => (key y < key x)%Q)).
  - apply Hstrict. reflexivity.
  - apply Hstrict. symmetry. exact Hperm.
  - destruct (sorted_desc_spec key l1) as (Hp1 & _).
    destruct (sorted_desc_spec key l2) as (Hp2 & _).
    rewrite Hp1, Hp2. exact Hperm.
Qed.

Lemma zip_scored (f : string * string -> Q) (query : string) (cs : list string) :
  zip cs (map f (map (fun cand => (query, cand)) cs))
  = map (fun cand => (cand, f (query, cand))) cs.
Proof. induction cs as [|c cs IH]; simpl; [|rewrite IH]; reflexivity. Qed.

(** Two interpreters may enumerate [set(...)] differently.  With a scorer
    that scores each pair on its own and gives no two fused candidates
    the same score, the tuple returned is the same under any two set
    orders. *)
Lemma ranking_independent_of_set_order (so1 so2 : SetOrder) (query : string)
    (fa fb : list string) (cross_encoder : CrossEncoder) (f : string * string -> Q) :
  (forall pairs, predict cross_encoder pairs = Return (map f pairs)) ->
  (forall x y, x ∈ (fa ++ fb)%list -> y ∈ (fa ++ fb)%list ->
               (f (query, x) == f (query, y))%Q -> x = y) ->
  result (rerank_and_flag query (candidate_set so1 fa fb) cross_encoder)
  = result (rerank_and_flag query (candidate_set so2 fa fb) cross_encoder).
Proof.
  intros Hf Hinj.
  assert (ranked_candidates (candidate_set so1 fa fb)
            (map f (map (fun cand => (query, cand)) (candidate_set so1 fa fb)))
          = ranked_candidates (candidate_set so2 fa fb)
              (map f (map (fun cand => (query, cand)) (candidate_set so2 fa fb)))) as Hr.
  { unfold ranked_candidates. rewrite !zip_scored.
    assert (Inj (=) (=) (fun cand : string => (cand, f (query, cand)))) as Hg
      by (intros x y [= ->]; reflexivity).
    apply sorted_desc_perm_unique.
    - apply fmap_Permutation, NoDup_Permutation; try apply set_iter_NoDup.
      intros x. unfold candidate_set. rewrite !set_iter_elem. reflexivity.
    - apply (NoDup_fmap_2 _), set_iter_NoDup.
    - intros x y Hx Hy Heq.
      apply list_elem_of_fmap in Hx as (c & -> & Hc).
      apply list_elem_of_fmap in Hy as (d & -> & Hd).
      simpl in Heq. unfold candidate_set in Hc, Hd.
      rewrite set_iter_elem in Hc, Hd.
      rewrite (Hinj c d Hc Hd Heq). reflexivity. }
  unfold rerank_and_flag. rewrite !Hf, !call_Return_bind, Hr. reflexivity.
Qed.

Lemma result_bind {A B} (m : M A) (f : A -> M B) :
  result (m ≫= f)
  = match result m with Return a => result (f a) | Raise e => Raise e end.
Proof.
  destruct m as [tr [a|e]].
  - rewrite bind_Return. reflexivity.
  - reflexivity.
Qed.

(** [retrieve] uses the set order in one place, after the guard. *)
Lemma retrieve_result_by_stage (np : Numpy) (g : gmap string value) (so1 so2 : SetOrder)
    (query : string) (chunks : list string) (embedding_index : FaissIndex)
    (embeddings : list (list Q)) (embed_model : EmbedModel) (bm25 : Bm25)
    (tokenized_corpus : list (list string)) (cross_encoder : CrossEncoder)
    (top_k : Z) :
  result (retrieve_candidates np so1 query chunks embedding_index embed_model bm25
            cross_encoder top_k)
  = result (retrieve_candidates np so2 query chunks embedding_index embed_model bm25
              cross_encoder top_k) ->
  result (retrieve np g so1 query chunks embedding_index embeddings embed_model bm25
            tokenized_corpus cross_encoder top_k)
  = result (retrieve np g so2 query chunks embedding_index embeddings embed_model bm25
              tokenized_corpus cross_encoder top_k).
Proof.
  intros H. unfold retrieve, load_global.
  destruct (g !! "finance_keywords") as [[kws|]|]; simpl or_raise; [| |reflexivity].
  - rewrite !mret_bind. simpl iter_strings. rewrite !mret_bind.
    destruct (any_keyword kws query); [exact H|reflexivity].
  - rewrite !mret_bind. reflexivity.
Qed.

Lemma retrieve_candidates_result_no_ties (np : Numpy) (so1 so2 : SetOrder)
    (query : string) (chunks : list string) (embedding_index : FaissIndex)
    (embed_model : EmbedModel) (bm25 : Bm25) (cross_encoder : CrossEncoder)
    (top_k : Z) (f : string * string -> Q) :
  (forall pairs, predict cross_encoder pairs = Return (map f pairs)) ->
  (forall tr fa fb,
     retrieve_both np query chunks embedding_index embed_model bm25 top_k
       = (tr, Return (fa, fb)) ->
     forall x y, x ∈ (fa ++ fb)%list -> y ∈ (fa ++ fb)%list ->
                 (f (query, x) == f (query, y))%Q -> x = y) ->
  result (retrieve_candidates np so1 query chunks embedding_index embed_model bm25
            cross_encoder top_k)
  = result (retrieve_candidates np so2 query chunks embedding_index embed_model bm25
              cross_encoder top_k).
Proof.
  intros Hf Hties. unfold retrieve_candidates. rewrite !result_bind.
  destruct (retrieve_both np query chunks embedding_index embed_model bm25 top_k)
    as [tr [[fa fb]|e]] eqn:Hboth; simpl result; [|reflexivity].
  cbv beta iota zeta.
  pose proof (ranking_independent_of_set_order so1 so2 query fa fb cross_encoder f
                Hf (Hties tr fa fb eq_refl)) as Hrank.
  destruct (candidate_set so1 fa fb) as [|c1 cs1] eqn:E1;
    destruct (candidate_set so2 fa fb) as [|c2 cs2] eqn:E2.
  - reflexivity.
  - apply candidate_set_nil_iff in E1. apply (candidate_set_nil_iff so2) in E1.
    congruence.
  - apply candidate_set_nil_iff in E2. apply (candidate_set_nil_iff so1) in E2.
    congruence.
  - exact Hrank.
Qed.

(** C4, as the code has it. Two builds of the indexes from one chunk
    sequence, with the models given as functions, answer one query
    identically (same events, same outcome) when both runs enumerate
    [set(...)] the same way, as they do within one interpreter.  Under
    two different set orders the outcome (top chunk, confidence, ranked
    list) is still the same when the scorer scores each pair on its own
    and no two fused candidates get equal scores. *)
Theorem rebuild_same_result (np : Numpy) (g : gmap string value) (so1 so2 : SetOrder)
    (BM25Okapi : list (list string) -> outcome Bm25) (chunks : list string)
    (embed_model : EmbedModel) (cross_encoder : CrossEncoder)
    (query : string) (top_k : Z)
    (index1 index2 : FaissIndex) (embeddings1 embeddings2 : list (list Q))
    (bm25_1 bm25_2 : Bm25) (tokens1 tokens2 : list (list string))
    (f : string * string -> Q) :
  result (create_embedding_index np chunks embed_model) = Return (index1, embeddings1) ->
  result (create_embedding_index np chunks embed_model) = Return (index2, embeddings2) ->
  result (create_bm25_index BM25Okapi chunks) = Return (bm25_1, tokens1) ->
  result (create_bm25_index BM25Okapi chunks) = Return (bm25_2, tokens2) ->
  (set_iter so1 = set_iter so2 ->
   retrieve np g so1 query chunks index1 embeddings1 embed_model bm25_1 tokens1
     cross_encoder top_k
   = retrieve np g so2 query chunks index2 embeddings2 embed_model bm25_2 tokens2
       cross_encoder top_k) /\
  ((forall pairs, predict cross_encoder pairs = Return (map f pairs)) ->
   (forall tr fa fb,
      retrieve_both np query chunks index1 embed_model bm25_1 top_k
        = (tr, Return (fa, fb)) ->
      forall x y, x ∈ (fa ++ fb)%list -> y ∈ (fa ++ fb)%list ->
                  (f (query, x) == f (query, y))%Q -> x = y) ->
   result (retrieve np g so1 query chunks index1 embeddings1 embed_model bm25_1 tokens1
             cross_encoder top_k)
   = result (retrieve np g so2 query chunks index2 embeddings2 embed_model bm25_2 tokens2
               cross_encoder top_k)).
Proof.
  intros H1 H2 H3 H4.
  rewrite H1 in H2. rewrite H3 in H4.
  injection H2 as <- <-. injection H4 as <- <-. split.
  - intros Hso. destruct so1 as [it1 nd1 el1], so2 as [it2 nd2 el2].
    simpl in Hso. subst it2. reflexivity.
  - intros Hf Hties.
    apply retrieve_result_by_stage, (retrieve_candidates_result_no_ties _ _ _ _ _ _ _ _ _ _ f);
      assumption.
Qed.

(** C4, as the spec words it, fails: the scorer that gives every passage
    0.15 is deterministic, and the two runs over the sample corpus differ
    only in the order in which the interpreter enumerates the fused set;
    they return different top chunks and different ranked lists. *)
Lemma tied_results_differ_across_runs :
  result (build_and_retrieve Demo.numpy Demo.globals_with_keywords last_occurrence_order
            Demo.BM25Okapi Demo.chunks Demo.embed_model Demo.weak_cross_encoder
            Demo.query 5)
  = Return (RTuple "weather was sunny" (15 # 100)
              [("weather was sunny", 15 # 100); ("revenue grew 10%", 15 # 100);
               ("operating margin improved", 15 # 100)]) /\
  result (build_and_retrieve Demo.numpy Demo.globals_with_keywords reversed_order
            Demo.BM25Okapi Demo.chunks Demo.embed_model Demo.weak_cross_encoder
            Demo.query 5)
  = Return (RTuple "operating margin improved" (15 # 100)
              [("operating margin improved", 15 # 100); ("revenue grew 10%", 15 # 100);
               ("weather was sunny", 15 # 100)]).
Proof. split; vm_compute; reflexivity. Qed.

(* ===================================================================== *)
(** ** Dimension check of the embedding index *)
(* ===================================================================== *)

Lemma build_Return (vs : list EmbeddingIndex.EmbeddingVector) (idx : EmbeddingIndex.Index) :
  EmbeddingIndex.build vs = Return idx ->
  vs <> [] /\ EmbeddingIndex.vectors idx = vs /\
  Forall (fun v => length (EmbeddingIndex.vector v) = EmbeddingIndex.dim idx) vs.
Proof.
  unfold EmbeddingIndex.build. destruct vs as [|v vs']; [discriminate|].
  destruct (forallb _ _) eqn:Hall; [|discriminate].
  intros [= <-]. simpl. split; [discriminate|]. split; [reflexivity|].
  apply Forall_forall. intros w Hw. apply list_elem_of_In in Hw.
  rewrite forallb_forall in Hall. apply Nat.eqb_eq, Hall, Hw.
Qed.

(** C9. On a built index, a search with a query vector whose length is
    not the index's dimension fails with [DimensionMismatch], through
    the single-vector interface and through the batch interface that
    [retrieve] calls; no hits are returned. *)
Theorem search_wrong_dimension_fails (vs : list EmbeddingIndex.EmbeddingVector)
    (idx : EmbeddingIndex.Index) (query_vector : list Q) (k : Z) :
  EmbeddingIndex.build vs = Return idx ->
  length query_vector <> EmbeddingIndex.dim idx ->
  EmbeddingIndex.search idx query_vector k = Raise DimensionMismatch /\
  search (EmbeddingIndex.as_faiss idx) [query_vector] k = Raise DimensionMismatch.
Proof.
  intros Hb Hd. apply build_Return in Hb as (Hne & Hvs & _).
  assert (EmbeddingIndex.search idx query_vector k = Raise DimensionMismatch) as H.
  { unfold EmbeddingIndex.search. rewrite Hvs.
    destruct vs as [|v vs']; [congruence|].
    apply Nat.eqb_neq in Hd. rewrite Hd. reflexivity. }
  split; [exact H|]. simpl. rewrite H. reflexivity.
Qed.

(** Inside the pipeline the dimension failure is not caught: a query
    embedding of the wrong length (the conversion to single precision
    keeps the length) ends the retrieval stage at the search call. *)
Lemma retrieve_both_wrong_dimension (np : Numpy) (vs : list EmbeddingIndex.EmbeddingVector)
    (idx : EmbeddingIndex.Index) (query : string) (chunks : list string)
    (embed_model : EmbedModel) (bm25 : Bm25) (top_k : Z) (query_vector : list Q) :
  EmbeddingIndex.build vs = Return idx ->
  encode embed_model [query] = Return [query_vector] ->
  length query_vector <> EmbeddingIndex.dim idx ->
  retrieve_both np query chunks (EmbeddingIndex.as_faiss idx) embed_model bm25 top_k
  = ([CallEncode [query]; CallEncode [query];
      CallSearch [map (float32 np) query_vector] top_k],
     Raise DimensionMismatch).
Proof.
  intros Hb He Hd. apply build_Return in Hb as (Hne & Hvs & _).
  unfold retrieve_both. rewrite He, !call_Return_bind.
  unfold as_float32. simpl rectangular. cbv iota. rewrite mret_bind. simpl search.
  unfold EmbeddingIndex.search. rewrite Hvs.
  destruct vs as [|v vs']; [congruence|].
  rewrite length_map. apply Nat.eqb_neq in Hd. rewrite Hd. reflexivity.
Qed.

(* ===================================================================== *)
(** ** The theorems on the sample corpus *)
(* ===================================================================== *)

(** Chunks of three words overlapping by one, over seven words. *)
Lemma chunk_text_sample :
  exists chunks,
    chunk_text 8 "a b c d e f g" 3 1 = Some chunks /\
    (forall w, w ∈ PyStr.split "a b c d e f g" ->
               exists c, c ∈ chunks /\ w ∈ PyStr.split c) /\
    length chunks = 4%nat.
Proof.
  destruct (chunk_text_terminates_and_covers "a b c d e f g" 3 1)
    as (chunks & Hrun & Hcov & _ & Hlen); [lia|lia|].
  exists chunks. split; [exact Hrun|]. split; [exact Hcov|].
  change (length (PyStr.split "a b c d e f g")) with 7%nat in Hlen.
  assert (~ (4 < length chunks)%nat) as H4.
  { intros H. apply (Hlen 4%nat) in H. lia. }
  assert (3 < length chunks)%nat as H3 by (apply (Hlen 3%nat); lia).
  lia.
Defined.


(** Two builds over the sample corpus, queried under two set orders with
    a scorer that grades passages by their length. *)
Lemma rebuild_sample :
  result (retrieve Demo.numpy Demo.globals_with_keywords last_occurrence_order Demo.query
            Demo.chunks Demo.embedding_index Demo.embeddings Demo.embed_model
            Demo.bm25 Demo.tokenized_corpus Demo.graded_cross_encoder 5)
  = result (retrieve Demo.numpy Demo.globals_with_keywords reversed_order Demo.query
              Demo.chunks Demo.embedding_index Demo.embeddings Demo.embed_model
              Demo.bm25 Demo.tokenized_corpus Demo.graded_cross_encoder 5).
Proof.
  apply (rebuild_same_result Demo.numpy Demo.globals_with_keywords last_occurrence_order
           reversed_order Demo.BM25Okapi Demo.chunks Demo.embed_model
           Demo.graded_cross_encoder Demo.query 5 Demo.embedding_index
           Demo.embedding_index Demo.embeddings Demo.embeddings Demo.bm25 Demo.bm25
           Demo.tokenized_corpus Demo.tokenized_corpus Demo.grade);
    try reflexivity.
  intros tr fa fb Hboth x y Hx Hy Heq.
  vm_compute in Hboth. injection Hboth as _ <- <-.
  simpl app in Hx, Hy.
  repeat (apply elem_of_cons in Hx as [->|Hx]);
    try (apply elem_of_nil in Hx; contradiction);
    repeat (apply elem_of_cons in Hy as [->|Hy]);
    try (apply elem_of_nil in Hy; contradiction);
    try reflexivity; vm_compute in Heq; discriminate Heq.
Defined.


(** [top_k = 0]: both retrievers come back empty. *)
Lemma no_results_sample :
  retrieve Demo.numpy Demo.globals_with_keywords last_occurrence_order Demo.query Demo.chunks
    Demo.embedding_index Demo.embeddings Demo.embed_model Demo.bm25
    Demo.tokenized_corpus Demo.cross_encoder 0
  = ([CallEncode [Demo.query]; CallEncode [Demo.query]; CallSearch [[28; 5]%Q] 0;
      CallGetScores ["what"; "was"; "the"; "revenue"; "growth?"]],
     Return no_results).
Proof.
  destruct (fusion_empty_iff_both_empty Demo.numpy Demo.globals_with_keywords
              last_occurrence_order Demo.query Demo.chunks Demo.embedding_index
              Demo.embeddings Demo.embed_model Demo.bm25 Demo.tokenized_corpus
              Demo.cross_encoder 0 finance_keywords
              [CallEncode [Demo.query]; CallEncode [Demo.query]; CallSearch [[28; 5]%Q] 0;
               CallGetScores ["what"; "was"; "the"; "revenue"; "growth?"]]
              [] [])
    as (_ & Hempty & _); [vm_compute; reflexivity ..|].
  apply Hempty. split; reflexivity.
Defined.

(** The scorer's exception, on the sample corpus. *)
Lemma scorer_failure_sample :
  retrieve Demo.numpy Demo.globals_with_keywords last_occurrence_order Demo.query Demo.chunks
    Demo.embedding_index Demo.embeddings Demo.embed_model Demo.bm25
    Demo.tokenized_corpus Demo.failing_cross_encoder 2
  = (([CallEncode [Demo.query]; CallEncode [Demo.query]; CallSearch [[28; 5]%Q] 2;
       CallGetScores ["what"; "was"; "the"; "revenue"; "growth?"]]
      ++ [CallPredict (map (fun cand => (Demo.query, cand))
                     (candidate_set last_occurrence_order
                        ["operating margin improved"; "weather was sunny"]
                        ["weather was sunny"; "revenue grew 10%"]))])%list,
     Raise (ExternalError "model unavailable")).
Proof.
  apply (scorer_failure_propagates Demo.numpy Demo.globals_with_keywords
           last_occurrence_order Demo.query Demo.chunks Demo.embedding_index
           Demo.embeddings Demo.embed_model Demo.bm25 Demo.tokenized_corpus
           Demo.failing_cross_encoder 2 finance_keywords);
    try (vm_compute; reflexivity).
  vm_compute. discriminate.
Defined.

(** Top 3 of five scores, two of them tied at the top. *)
Lemma bm25_top_indices_sample :
  let scores := [1; 3; 2; 3; 0]%Q in
  let top := bm25_top_indices Demo.numpy scores 3 in
  length top = Z.to_nat (Z.min 3 5) /\
  NoDup top /\
  (forall i, i ∈ top -> 0 <= i < 5) /\
  StronglySorted (score_not_below scores) top /\
  (forall i j, i ∈ top -> 0 <= j < 5 -> j ∉ top ->
               (score_at scores j <= score_at scores i)%Q) /\
  top = take (Z.to_nat 3) (reverse (argsort Demo.numpy scores)).
Proof.
  apply (bm25_top_indices_spec Demo.numpy [1; 3; 2; 3; 0]%Q 3). lia.
Defined.

(** A two-dimensional index queried with a three-dimensional vector. *)
Lemma search_wrong_dimension_sample :
  let idx := {| EmbeddingIndex.dim := 2;
                EmbeddingIndex.vectors :=
                  [{| EmbeddingIndex.chunk_id := 0; EmbeddingIndex.vector := [1; 0]%Q |};
                   {| EmbeddingIndex.chunk_id := 1; EmbeddingIndex.vector := [0; 1]%Q |}] |} in
  EmbeddingIndex.search idx [1; 0; 0]%Q 5 = Raise DimensionMismatch /\
  search (EmbeddingIndex.as_faiss idx) [[1; 0; 0]%Q] 5 = Raise DimensionMismatch.
Proof.
  apply (search_wrong_dimension_fails
           [{| EmbeddingIndex.chunk_id := 0; EmbeddingIndex.vector := [1; 0]%Q |};
            {| EmbeddingIndex.chunk_id := 1; EmbeddingIndex.vector := [0; 1]%Q |}]).
  - reflexivity.
  - simpl. lia.
Defined.

(** Dense hits 2 and 1, lexical hits 1 and 0, on the sample corpus. *)
Lemma candidate_set_sample :
  let fa := ["operating margin improved"; "weather was sunny"] in
  let fb := ["weather was sunny"; "revenue grew 10%"] in
  let fused := candidate_set last_occurrence_order fa fb in
  NoDup fused /\
  (forall t, t ∈ fused <-> t ∈ fa \/ t ∈ fb) /\
  length fused = length (remove_dups (fa ++ fb)) /\
  (forall i t, i ∈ [2; 1] -> i ∈ [1; 0] -> PySeq.index Demo.chunks i = Some t ->
               length (filter (fun x => x = t) fused) = 1%nat) /\
  ((forall i j, i ∈ ([2; 1] ++ [1; 0])%list -> j ∈ ([2; 1] ++ [1; 0])%list ->
                PySeq.index Demo.chunks i = PySeq.index Demo.chunks j -> i = j) ->
   length fused = length (remove_dups ([2; 1] ++ [1; 0]))).
Proof.
  apply (candidate_set_union_by_text last_occurrence_order Demo.chunks
           [2; 1] [1; 0]); reflexivity.
Defined.

(* ===================================================================== *)
(** ** [clean_text] *)
(* ===================================================================== *)

Section CleanText.
Import PyStr.

Lemma isspace_space : isspace " " = true.
Proof. reflexivity. Qed.

Lemma isspace_newline : isspace (ascii_of_nat 10) = true.
Proof. reflexivity. Qed.

Lemma split_nonblank_head (c : ascii) (s : string) :
  isspace c = false -> split (String c s) <> [].
Proof.
  intros Hc. simpl. rewrite Hc. destruct s as [|c' s']; [discriminate|].
  destruct (isspace c'); [discriminate|].
  destruct (split (String c' s')); discriminate.
Qed.

(** A joined list of words starts with a character that is no blank. *)
Lemma join_words_head (ws : list string) :
  Forall word ws -> ws <> [] ->
  exists c r, join " " ws = String c r /\ isspace c = false.
Proof.
  intros Hws Hne. destruct ws as [|w ws']; [congruence|].
  apply Forall_cons in Hws as [[Hw Hcs] _].
  destruct w as [|c w']; [congruence|].
  simpl in Hcs. apply Forall_cons in Hcs as [Hc _].
  simpl. destruct ws'.
  - exists c, w'. split; [reflexivity|exact Hc].
  - rewrite append_String. eexists c, _. split; [reflexivity|exact Hc].
Qed.

Lemma rstrip_app_space (x : string) : rstrip (x ++ " ") = rstrip x.
Proof.
  induction x as [|c x IH]; [reflexivity|].
  rewrite append_String. simpl. rewrite IH. reflexivity.
Qed.

Lemma rstrip_word (w : string) : word w -> rstrip w = w.
Proof.
  intros [Hne Hcs]. induction w as [|c w IH]; [congruence|].
  simpl in Hcs. apply Forall_cons in Hcs as [Hc Hcs].
  simpl. destruct w as [|d w'].
  - simpl. rewrite Hc. reflexivity.
  - rewrite IH; [reflexivity|discriminate|exact Hcs].
Qed.

Lemma rstrip_app_keep (a b : string) :
  rstrip b = b -> b <> EmptyString -> rstrip (a ++ b) = a ++ b.
Proof.
  intros Hb Hne. induction a as [|c a IH]; [exact Hb|].
  rewrite append_String. simpl. rewrite IH.
  destruct (a ++ b) as [|d r] eqn:E; [|reflexivity].
  destruct a; [rewrite append_Empty_l in E; congruence|discriminate E].
Qed.

Lemma rstrip_join_words (ws : list string) :
  Forall word ws -> rstrip (join " " ws) = join " " ws.
Proof.
  induction 1 as [|w ws Hw Hws IH]; [reflexivity|].
  simpl. destruct ws as [|w' ws']; [apply rstrip_word, Hw|].
  destruct (join_words_head (w' :: ws') Hws) as (c & r & Hj & _); [discriminate|].
  replace (w ++ " " ++ join " " (w' :: ws'))
    with ((w ++ " ") ++ join " " (w' :: ws')).
  - apply rstrip_app_keep; [exact IH|]. rewrite Hj. discriminate.
  - clear. induction w as [|c w IH]; [reflexivity|].
    rewrite !append_String, IH. reflexivity.
Qed.

Let lead (s : string) : string :=
  match s with
  | String c _ => if isspace c then " " else EmptyString
  | EmptyString => EmptyString
  end.

(** What the substitution leaves: the words joined by single spaces,
    with one space in front if the text began with a blank and one
    behind if it ended with one. *)
Lemma sub_blank_runs_shape (s : string) :
  exists trail,
    sub_blank_runs s = lead s ++ join " " (split s) ++ trail /\
    (trail = EmptyString \/ (trail = " " /\ split s <> [])).
Proof.
  induction s as [|c s IH]; [exists EmptyString; split; [reflexivity|left; reflexivity]|].
  destruct IH as (trail & IH & Htrail).
  simpl sub_blank_runs. simpl split. unfold lead. destruct (isspace c) eqn:Hc.
  - destruct s as [|c' s'].
    + exists EmptyString. split; [reflexivity|left; reflexivity].
    + unfold lead in IH. destruct (isspace c') eqn:Hc'.
      * exists trail. split; [exact IH|exact Htrail].
      * exists trail. split; [|exact Htrail].
        rewrite IH. reflexivity.
  - destruct s as [|c' s'].
    + exists EmptyString. split; [reflexivity|left; reflexivity].
    + unfold lead in IH. destruct (isspace c') eqn:Hc'.
      * rewrite IH. destruct (split (String c' s')) as [|w ws] eqn:Hs.
        -- destruct Htrail as [->|[_ ?]]; [|congruence].
           exists " ". split; [reflexivity|right; split; [reflexivity|discriminate]].
        -- exists trail. split; [reflexivity|].
           destruct Htrail as [->|[-> _]]; [left; reflexivity|].
           right. split; [reflexivity|discriminate].
      * rewrite IH, append_Empty_l.
        destruct (split (String c' s')) as [|w ws] eqn:Hs.
        -- exfalso. exact (split_nonblank_head c' s' Hc' Hs).
        -- exists trail. split.
           ++ rewrite append_Empty_l. simpl.
              destruct ws; rewrite ?append_String; reflexivity.
           ++ destruct Htrail as [->|[-> _]]; [left; reflexivity|].
              right. split; [reflexivity|discriminate].
Qed.

End CleanText.

Lemma clean_text_join_words (text : string) :
  clean_text text = PyStr.join " " (PyStr.split text).
Proof.
  unfold clean_text, strip.
  destruct (sub_blank_runs_shape text) as (trail & -> & Htrail).
  pose proof (split_words text) as Hws.
  destruct (PyStr.split text) as [|w ws] eqn:Hs.
  - destruct Htrail as [->|[_ ?]]; [|congruence].
    simpl PyStr.join. rewrite append_Empty_l, append_Empty_r.
    destruct text as [|c t]; [reflexivity|]. simpl.
    destruct (PyStr.isspace c); reflexivity.
  - destruct (join_words_head (w :: ws) Hws) as (c & r & Hj & Hc); [discriminate|].
    assert (lstrip
              (match text with
               | String c0 _ => if PyStr.isspace c0 then " " else EmptyString
               | EmptyString => EmptyString
               end ++ PyStr.join " " (w :: ws) ++ trail)
            = PyStr.join " " (w :: ws) ++ trail) as ->.
    { assert (lstrip (PyStr.join " " (w :: ws) ++ trail)
              = PyStr.join " " (w :: ws) ++ trail) as Hl
        by (rewrite Hj, append_String; simpl; rewrite Hc; reflexivity).
      destruct text as [|c0 t]; [exact Hl|].
      destruct (PyStr.isspace c0); [|exact Hl].
      rewrite append_String, append_Empty_l. simpl. exact Hl. }
    destruct Htrail as [->|[-> _]].
    + rewrite append_Empty_r. apply rstrip_join_words, Hws.
    + rewrite rstrip_app_space. apply rstrip_join_words, Hws.
Qed.

(** X1. [clean_text] gives the words of the text joined by single spaces:
    runs of blanks of any kind become one space and blanks at either end
    go, so the result is [" ".join(text.split())]. *)
Theorem clean_text_join_split (text : string) :
  clean_text text = PyStr.join " " (PyStr.split text).
Proof. apply clean_text_join_words. Qed.

(** X2. Cleaning keeps the word sequence of the text, and cleaning a
    cleaned text changes nothing. *)
Theorem clean_text_words_and_idempotent (text : string) :
  PyStr.split (clean_text text) = PyStr.split text /\
  clean_text (clean_text text) = clean_text text.
Proof.
  assert (PyStr.split (clean_text text) = PyStr.split text) as H.
  { rewrite clean_text_join_words. apply split_join, split_words. }
  split; [exact H|].
  rewrite (clean_text_join_words (clean_text text)), H.
  symmetry. apply clean_text_join_words.
Qed.

(* ===================================================================== *)
(** ** [extract_text_from_pdf] *)
(* ===================================================================== *)

Section Extract.
Import PyStr.

(** A blank between two pieces of text keeps their words apart. *)
Lemma split_app_blank (a b : string) (c : ascii) :
  isspace c = true -> split (a ++ String c b) = (split a ++ split b)%list.
Proof.
  intros Hc. induction a as [|x a IH].
  - rewrite append_Empty_l. simpl. rewrite Hc. reflexivity.
  - rewrite append_String. simpl split. destruct (isspace x) eqn:Hx; [exact IH|].
    destruct a as [|y a'].
    + rewrite append_Empty_l in *. rewrite Hc. simpl in IH. rewrite Hc in IH.
      simpl. rewrite Hc. reflexivity.
    + rewrite append_String in *. destruct (isspace y) eqn:Hy.
      * rewrite IH. reflexivity.
      * rewrite IH.
        destruct (split (String y a')) as [|w ws] eqn:Hs; [|reflexivity].
        exfalso. exact (split_nonblank_head y a' Hy Hs).
Qed.

Lemma append_assoc (a b c : string) : (a ++ b) ++ c = a ++ (b ++ c).
Proof. induction a as [|x a IH]; [reflexivity|]. rewrite !append_String, IH. reflexivity. Qed.

Lemma split_app_newline (a b : string) :
  split ((a ++ newline) ++ b) = (split a ++ split b)%list.
Proof.
  rewrite append_assoc. unfold newline. rewrite append_String, append_Empty_l.
  apply split_app_blank, isspace_newline.
Qed.

Lemma extract_loop_words (pages : pdf) (text : string) :
  split (extract_loop pages (text ++ newline))
  = (split text ++ concat (map page_words pages))%list.
Proof.
  revert text. induction pages as [|page pages IH]; intros text; simpl.
  - rewrite <- (append_Empty_r (text ++ newline)), split_app_newline.
    reflexivity.
  - destruct page as [[|c t]|]; simpl page_words.
    + apply IH.
    + rewrite <- append_assoc, IH, split_app_newline, <- app_assoc. reflexivity.
    + apply IH.
Qed.

End Extract.

(** X3. The words of the extracted text are the words of the pages, page
    after page: the line feed after each page keeps the last word of one
    page apart from the first word of the next, and pages for which the
    reader returns [None] or an empty string contribute nothing. *)
Theorem extract_text_words (pdf_file : pdf) :
  PyStr.split (extract_text_from_pdf pdf_file) = concat (map page_words pdf_file).
Proof.
  unfold extract_text_from_pdf.
  induction pdf_file as [|page pages IH]; [reflexivity|].
  simpl. destruct page as [[|c t]|]; simpl page_words; try exact IH.
  rewrite append_Empty_l, extract_loop_words. reflexivity.
Qed.

(* ===================================================================== *)
(** ** [chunk_text]: sizes, overlap, partition *)
(* ===================================================================== *)

Lemma slice_take_drop {A} (l : list A) (i cs : Z) :
  0 <= i -> 0 <= cs ->
  PySeq.slice l i (i + cs) = take (Z.to_nat cs) (drop (Z.to_nat i) l).
Proof.
  intros Hi Hcs. unfold PySeq.slice, PySeq.norm.
  destruct (Z.ltb_spec i 0) as [?|_]; [lia|].
  destruct (Z.ltb_spec (i + cs) 0) as [?|_]; [lia|].
  destruct (Z.le_gt_cases i (Z.of_nat (length l))) as [Hin|Hout].
  - replace (Z.to_nat (Z.min i (Z.of_nat (length l)))) with (Z.to_nat i) by lia.
    destruct (Z.le_gt_cases (i + cs) (Z.of_nat (length l))) as [Hfull|Hshort].
    + f_equal. lia.
    + rewrite !take_ge; [reflexivity| |]; rewrite length_drop; lia.
  - rewrite (drop_ge l (Z.to_nat i)) by lia. rewrite take_nil.
    replace (Z.to_nat (Z.min (i + cs) (Z.of_nat (length l))
                       - Z.min i (Z.of_nat (length l)))) with 0%nat by lia.
    reflexivity.
Qed.

(** The words of the chunk at position [m], for any fuel that lets the
    loop exit. *)
Lemma chunk_text_words_at (fuel : nat) (text : string) (chunk_size overlap : Z)
    (chunks : list string) (m : nat) (c : string) :
  chunk_size > overlap -> overlap >= 0 ->
  chunk_text fuel text chunk_size overlap = Some chunks ->
  chunks !! m = Some c ->
  PyStr.split c
  = take (Z.to_nat chunk_size)
      (drop (m * Z.to_nat (chunk_size - overlap)) (PyStr.split text)) /\
  (m * Z.to_nat (chunk_size - overlap) < length (PyStr.split text))%nat.
Proof.
  intros Hcs Hov Hrun Hm. unfold chunk_text in Hrun.
  destruct (chunk_loop_shape (PyStr.split text) chunk_size overlap fuel 0 [] chunks)
    as [Hshape _]; [reflexivity| |exact Hrun|].
  { intros k d Hk. discriminate Hk. }
  destruct (Hshape m c Hm) as [-> Hlt]. split; [|nia].
  rewrite split_join by (apply slice_Forall, split_words).
  rewrite slice_take_drop by nia. do 2 f_equal. nia.
Qed.

Lemma chunk_loop_fuel_mono (fuel : nat) :
  forall (words : list string) (chunk_size overlap i : Z) (acc res : list string)
         (fuel' : nat),
    chunk_loop fuel words chunk_size overlap i acc = Some res ->
    (fuel <= fuel')%nat ->
    chunk_loop fuel' words chunk_size overlap i acc = Some res.
Proof.
  induction fuel as [|fuel IH]; intros words cs ov i acc res fuel' Hrun Hle;
    [discriminate Hrun|].
  destruct fuel' as [|fuel']; [lia|]. simpl in *.
  destruct (i <? Z.of_nat (length words)); [|exact Hrun].
  apply (IH _ _ _ _ _ _ _ Hrun). lia.
Qed.

(** With no overlap the loop hands every word on exactly once. *)
Lemma chunk_loop_partition (fuel : nat) (words : list string) (chunk_size : Z) :
  Forall PyStr.word words -> chunk_size > 0 ->
  forall (i : Z) (acc res : list string),
    0 <= i ->
    chunk_loop fuel words chunk_size 0 i acc = Some res ->
    concat (map PyStr.split res)
    = (concat (map PyStr.split acc) ++ drop (Z.to_nat i) words)%list.
Proof.
  intros Hws Hcs. induction fuel as [|fuel IH]; intros i acc res Hi Hrun;
    [discriminate Hrun|].
  simpl in Hrun. destruct (Z.ltb_spec i (Z.of_nat (length words))) as [Hlt|Hge].
  - apply IH in Hrun; [|lia]. rewrite Hrun.
    rewrite map_app, concat_app. simpl. rewrite app_nil_r, <- app_assoc. f_equal.
    rewrite split_join by (apply slice_Forall, Hws).
    rewrite slice_take_drop by lia.
    replace (Z.to_nat (i + (chunk_size - 0))) with (Z.to_nat i + Z.to_nat chunk_size)%nat
      by lia.
    rewrite <- drop_drop. apply take_drop.
  - injection Hrun as <-. rewrite drop_ge by lia. rewrite app_nil_r. reflexivity.
Qed.

(** X4. Under [chunk_size > overlap >= 0] no chunk is empty and none has
    more than [chunk_size] words. *)
Theorem chunk_text_chunk_sizes (fuel : nat) (text : string) (chunk_size overlap : Z)
    (chunks : list string) (c : string) :
  chunk_size > overlap -> overlap >= 0 ->
  chunk_text fuel text chunk_size overlap = Some chunks ->
  c ∈ chunks ->
  (1 <= length (PyStr.split c) <= Z.to_nat chunk_size)%nat.
Proof.
  intros Hcs Hov Hrun Hc. apply list_elem_of_lookup in Hc as [m Hm].
  destruct (chunk_text_words_at fuel text chunk_size overlap chunks m c
              Hcs Hov Hrun Hm) as [-> Hlt].
  rewrite length_take, length_drop. lia.
Qed.

(** X5. Consecutive chunks share their overlap: what is left of a chunk
    after its first [chunk_size - overlap] words is the beginning, up to
    [overlap] words, of the next chunk. *)
Theorem chunk_text_overlap (fuel : nat) (text : string) (chunk_size overlap : Z)
    (chunks : list string) (m : nat) (c c' : string) :
  chunk_size > overlap -> overlap >= 0 ->
  chunk_text fuel text chunk_size overlap = Some chunks ->
  chunks !! m = Some c -> chunks !! S m = Some c' ->
  drop (Z.to_nat (chunk_size - overlap)) (PyStr.split c)
  = take (Z.to_nat overlap) (PyStr.split c').
Proof.
  intros Hcs Hov Hrun Hm Hm'.
  destruct (chunk_text_words_at fuel text chunk_size overlap chunks m c
              Hcs Hov Hrun Hm) as [-> _].
  destruct (chunk_text_words_at fuel text chunk_size overlap chunks (S m) c'
              Hcs Hov Hrun Hm') as [-> _].
  rewrite skipn_firstn_comm, drop_drop, take_take. f_equal; [lia|].
  f_equal. lia.
Qed.

(** X6. With [overlap = 0] chunking is a partition of the text: the words
    of the chunks, chunk after chunk, are the words of the text, each
    once and in order. *)
Theorem chunk_text_partition (fuel : nat) (text : string) (chunk_size : Z)
    (chunks : list string) :
  chunk_size > 0 ->
  chunk_text fuel text chunk_size 0 = Some chunks ->
  concat (map PyStr.split chunks) = PyStr.split text.
Proof.
  intros Hcs Hrun. unfold chunk_text in Hrun.
  apply (chunk_loop_partition fuel (PyStr.split text) chunk_size
           (split_words text) Hcs 0 [] chunks) in Hrun; [|lia].
  exact Hrun.
Qed.

(** X7. With [chunk_size <= overlap] the start index never advances: on
    a text with at least one word the loop does not exit, whatever the
    number of iterations allowed. *)
Theorem chunk_text_never_exits (text : string) (chunk_size overlap : Z) :
  chunk_size <= overlap -> PyStr.split text <> [] ->
  forall fuel, chunk_text fuel text chunk_size overlap = None.
Proof.
  intros Hstep Hne fuel. unfold chunk_text.
  apply chunk_loop_no_exit; [exact Hstep|exact Hne|lia].
Qed.

(* ===================================================================== *)
(** ** [process_pdfs] *)
(* ===================================================================== *)

(** The words of a file, as [chunk_text] sees them after cleaning. *)
Lemma cleaned_words (pdf_file : pdf) :
  PyStr.split (clean_text (extract_text_from_pdf pdf_file))
  = concat (map page_words pdf_file).
Proof.
  rewrite clean_text_join_words, split_join by apply split_words.
  unfold extract_text_from_pdf.
  induction pdf_file as [|page pages IH]; [reflexivity|].
  simpl. destruct page as [[|c t]|]; simpl page_words; try exact IH.
  rewrite append_Empty_l, extract_loop_words. reflexivity.
Qed.

Lemma process_loop_fuel_mono (pdf_files : list pdf) (chunk_size overlap : Z) :
  forall (fuel fuel' : nat) (acc res : list string),
    process_loop fuel pdf_files chunk_size overlap acc = Some res ->
    (fuel <= fuel')%nat ->
    process_loop fuel' pdf_files chunk_size overlap acc = Some res.
Proof.
  induction pdf_files as [|f fs IH]; intros fuel fuel' acc res Hrun Hle;
    [exact Hrun|].
  simpl in *. unfold chunk_text in *.
  destruct (chunk_loop fuel _ chunk_size overlap 0 []) as [chunks|] eqn:Hc;
    [|discriminate Hrun].
  rewrite (chunk_loop_fuel_mono fuel _ _ _ _ _ _ fuel' Hc Hle).
  apply (IH fuel fuel' _ _ Hrun Hle).
Qed.

(** Every chunk of the result is in what was accumulated or is a chunk
    of one of the files. *)
Lemma process_loop_origin (fuel : nat) (chunk_size overlap : Z) (pdf_files : list pdf) :
  forall (acc res : list string) (c : string),
    process_loop fuel pdf_files chunk_size overlap acc = Some res ->
    c ∈ res ->
    c ∈ acc \/
    exists pdf_file chunks,
      pdf_file ∈ pdf_files /\
      chunk_text fuel (clean_text (extract_text_from_pdf pdf_file)) chunk_size overlap
        = Some chunks /\
      c ∈ chunks.
Proof.
  induction pdf_files as [|f fs IH]; intros acc res c Hrun Hc.
  - injection Hrun as <-. left. exact Hc.
  - simpl in Hrun.
    destruct (chunk_text fuel (clean_text (extract_text_from_pdf f)) chunk_size overlap)
      as [chunks|] eqn:Hf; [|discriminate Hrun].
    destruct (IH _ _ c Hrun Hc) as [Hin|(g & cs & Hg & Hcs & Hin)].
    + apply elem_of_app in Hin as [Hin|Hin]; [left; exact Hin|].
      right. exists f, chunks. split; [left|split; assumption].
    + right. exists g, cs. split; [right; exact Hg|split; assumption].
Qed.

Section ProcessCovers.
Variables (chunk_size overlap : Z).
Hypothesis params_ok : chunk_size > overlap /\ overlap >= 0.

Lemma process_loop_covers (pdf_files : list pdf) :
  forall acc : list string,
  exists fuel res,
    process_loop fuel pdf_files chunk_size overlap acc = Some res /\
    (forall c, c ∈ acc -> c ∈ res) /\
    (forall pdf_file w,
       pdf_file ∈ pdf_files -> w ∈ concat (map page_words pdf_file) ->
       exists c, c ∈ res /\ w ∈ PyStr.split c).
Proof.
  induction pdf_files as [|f fs IH]; intros acc.
  - exists 0%nat, acc. split; [reflexivity|]. split; [auto|].
    intros g w Hg. inversion Hg.
  - set (words := PyStr.split (clean_text (extract_text_from_pdf f))).
    destruct (chunk_loop_covers words chunk_size overlap (split_words _) params_ok
                (S (length words)) 0 []) as (chunks & Hchunks & _ & Hcov); [lia|lia|].
    destruct (IH (acc ++ chunks)%list) as (fuel & res & Hres & Hacc & Hrest).
    exists (Nat.max (S (length words)) fuel), res. split; [|split].
    + simpl. unfold chunk_text. fold words.
      rewrite (chunk_loop_fuel_mono _ _ _ _ _ _ _ (Nat.max (S (length words)) fuel)
                 Hchunks) by lia.
      apply (process_loop_fuel_mono _ _ _ fuel _ _ _ Hres). lia.
    + intros c Hc. apply Hacc, elem_of_app. left. exact Hc.
    + intros g w Hg Hw. apply elem_of_cons in Hg as [->|Hg].
      * rewrite <- cleaned_words in Hw. fold words in Hw.
        apply list_elem_of_lookup in Hw as [k Hk].
        destruct (Hcov (Z.of_nat k) w) as (c & Hc & Hwc); [lia| |].
        { rewrite Nat2Z.id. exact Hk. }
        exists c. split; [|exact Hwc]. apply Hacc, elem_of_app. right. exact Hc.
      * apply (Hrest g w Hg Hw).
Qed.

End ProcessCovers.

(** X8. Under [chunk_size > overlap >= 0], [process_pdfs] terminates on
    every list of files (from some number of iterations on, allowing more
    changes nothing) and loses no word: each word of each page of each
    file is a word of some returned chunk. *)
Theorem process_pdfs_covers (pdf_files : list pdf) (chunk_size overlap : Z) :
  chunk_size > overlap -> overlap >= 0 ->
  exists fuel all_chunks,
    (forall fuel', (fuel <= fuel')%nat ->
       process_pdfs fuel' pdf_files chunk_size overlap = Some all_chunks) /\
    (forall pdf_file page_text w,
       pdf_file ∈ pdf_files -> Some page_text ∈ pdf_file -> w ∈ PyStr.split page_text ->
       exists c, c ∈ all_chunks /\ w ∈ PyStr.split c).
Proof.
  intros Hcs Hov.
  destruct (process_loop_covers chunk_size overlap (conj Hcs Hov) pdf_files [])
    as (fuel & res & Hres & _ & Hcov).
  exists fuel, res. split.
  - intros fuel' Hle. apply (process_loop_fuel_mono _ _ _ fuel _ _ _ Hres Hle).
  - intros f t w Hf Ht Hw. apply (Hcov f w Hf).
    apply list_elem_of_In, in_concat. exists (PyStr.split t). split.
    + apply in_map_iff. exists (Some t). split; [reflexivity|].
      apply list_elem_of_In, Ht.
    + apply list_elem_of_In, Hw.
Qed.

(** X9. No chunk mixes two files: under [chunk_size > overlap >= 0] the
    words of every returned chunk are a run of consecutive words of one
    of the files, at least one and at most [chunk_size] of them. *)
Theorem process_pdfs_chunk_within_file (fuel : nat) (pdf_files : list pdf)
    (chunk_size overlap : Z) (all_chunks : list string) (c : string) :
  chunk_size > overlap -> overlap >= 0 ->
  process_pdfs fuel pdf_files chunk_size overlap = Some all_chunks ->
  c ∈ all_chunks ->
  exists pdf_file before after,
    pdf_file ∈ pdf_files /\
    concat (map page_words pdf_file) = (before ++ PyStr.split c ++ after)%list /\
    (1 <= length (PyStr.split c) <= Z.to_nat chunk_size)%nat.
Proof.
  intros Hcs Hov Hrun Hc.
  destruct (process_loop_origin fuel chunk_size overlap pdf_files [] all_chunks c
              Hrun Hc) as [Hnil|(f & chunks & Hf & Hchunks & Hin)];
    [inversion Hnil|].
  apply list_elem_of_lookup in Hin as [m Hm].
  destruct (chunk_text_words_at fuel _ chunk_size overlap chunks m c
              Hcs Hov Hchunks Hm) as [Hwords Hlt].
  rewrite cleaned_words in Hwords, Hlt.
  set (ws := concat (map page_words f)) in *.
  set (i := (m * Z.to_nat (chunk_size - overlap))%nat) in *.
  exists f, (take i ws), (drop (i + Z.to_nat chunk_size) ws).
  split; [exact Hf|]. split.
  - rewrite Hwords, <- drop_drop, take_drop, take_drop. reflexivity.
  - rewrite Hwords, length_take, length_drop. lia.
Qed.

(** X10. Files whose pages carry no word give no chunk, whatever the
    parameters: [process_pdfs] returns the empty list. *)
Theorem process_pdfs_no_words (fuel : nat) (pdf_files : list pdf)
    (chunk_size overlap : Z) :
  Forall (Forall (fun page_text => page_words page_text = [])) pdf_files ->
  process_pdfs (S fuel) pdf_files chunk_size overlap = Some [].
Proof.
  intros Hblank. unfold process_pdfs.
  induction Hblank as [|f fs Hf _ IH]; [reflexivity|].
  simpl process_loop. unfold chunk_text. rewrite cleaned_words.
  assert (concat (map page_words f) = []) as ->.
  { induction Hf as [|p ps Hp _ IHp]; [reflexivity|]. simpl. rewrite Hp, IHp. reflexivity. }
  simpl. exact IH.
Qed.

(* ===================================================================== *)
(** ** Index construction *)
(* ===================================================================== *)

Section Lower.
Import PyStr.

Lemma isspace_lower (c : ascii) : isspace (lower_ascii c) = isspace c.
Proof. destruct c as [[] [] [] [] [] [] [] []]; reflexivity. Qed.

Lemma lower_ascii_idem (c : ascii) : lower_ascii (lower_ascii c) = lower_ascii c.
Proof. destruct c as [[] [] [] [] [] [] [] []]; reflexivity. Qed.

Lemma lower_idem (s : string) : lower (lower s) = lower s.
Proof. induction s as [|c s IH]; simpl; [|rewrite lower_ascii_idem, IH]; reflexivity. Qed.


(** Lower-casing moves no word boundary. *)
Lemma split_lower (s : string) : split (lower s) = map lower (split s).
Proof.
  induction s as [|c s IH]; [reflexivity|].
  simpl lower. simpl split. rewrite isspace_lower.
  destruct (isspace c); [exact IH|].
  destruct s as [|c' s']; [reflexivity|].
  change (lower (String c' s')) with (String (lower_ascii c') (lower s')) in *.
  cbv iota. rewrite isspace_lower.
  destruct (isspace c'); [rewrite IH; reflexivity|].
  rewrite IH. destruct (split (String c' s')); reflexivity.
Qed.

End Lower.

Lemma result_call {A} (ev : event) (r : outcome A) : result (call ev r) = r.
Proof. reflexivity. Qed.

Lemma result_lift {A} (r : outcome A) : result (lift r) = r.
Proof. reflexivity. Qed.

Lemma result_or_raise {A} (e : exn) (o : option A) :
  result (or_raise e o) = match o with Some a => Return a | None => Raise e end.
Proof. destruct o; reflexivity. Qed.

Lemma result_as_float32 (np : Numpy) (rows : list (list Q)) :
  result (as_float32 np rows)
  = if rectangular rows then Return (map (map (float32 np)) rows)
    else Raise (ValueError "setting an array element with a sequence").
Proof. unfold as_float32. destruct (rectangular rows); reflexivity. Qed.

Lemma trace_as_float32 (np : Numpy) (rows : list (list Q)) :
  trace (as_float32 np rows) = [].
Proof. unfold as_float32. destruct (rectangular rows); reflexivity. Qed.

(** X11. What [create_bm25_index] returns on success: the object the
    [BM25Okapi] constructor made from the token lists, and one token
    list per chunk holding the chunk's words in lower case, so every
    token is non-empty, free of blanks and unchanged by lower-casing. *)
Theorem create_bm25_index_tokens (BM25Okapi : list (list string) -> outcome Bm25)
    (chunks : list string) (bm25 : Bm25) (tokenized_corpus : list (list string)) :
  result (create_bm25_index BM25Okapi chunks) = Return (bm25, tokenized_corpus) ->
  BM25Okapi tokenized_corpus = Return bm25 /\
  tokenized_corpus = map (fun chunk => map PyStr.lower (PyStr.split chunk)) chunks /\
  Forall (Forall (fun token => PyStr.word token /\ PyStr.lower token = token))
    tokenized_corpus.
Proof.
  unfold create_bm25_index. rewrite result_bind, result_lift.
  set (toks := map (fun chunk => PyStr.split (PyStr.lower chunk)) chunks).
  destruct (BM25Okapi toks) as [b|e] eqn:Hb; [|discriminate].
  intros [= <- <-]. split; [exact Hb|]. split.
  - unfold toks. apply map_ext. intros chunk. apply split_lower.
  - unfold toks. apply Forall_forall. intros tokens Htokens.
    apply list_elem_of_In, in_map_iff in Htokens as (chunk & <- & _).
    apply Forall_forall. intros token Htoken. split.
    + pose proof (split_words (PyStr.lower chunk)) as Hws.
      rewrite Forall_forall in Hws. apply Hws, Htoken.
    + rewrite split_lower in Htoken.
      apply list_elem_of_In, in_map_iff in Htoken as (w & <- & _).
      apply lower_idem.
Qed.

(** X12. [create_embedding_index] makes exactly one call to the model,
    with all chunks.  When the model returns no vector (as for an empty
    chunk list) the function raises [IndexError] at [embeddings.shape[1]]
    and builds nothing; when it returns rows of different lengths,
    [np.array(...).astype("float32")] raises [ValueError]; when the
    function returns, the embeddings handed back are the model's,
    converted value by value to single precision: at least one row, and
    all rows of one length. *)
Theorem create_embedding_index_embeddings (np : Numpy) (chunks : list string)
    (model : EmbedModel) :
  (encode model chunks = Return [] ->
   create_embedding_index np chunks model = ([CallEncode chunks], Raise IndexError)) /\
  (forall raw,
     encode model chunks = Return raw -> rectangular raw = false ->
     exists msg,
       create_embedding_index np chunks model
       = ([CallEncode chunks], Raise (ValueError msg))) /\
  (forall index embeddings,
     result (create_embedding_index np chunks model) = Return (index, embeddings) ->
     exists raw,
       encode model chunks = Return raw /\
       raw <> [] /\ rectangular raw = true /\
       embeddings = map (map (float32 np)) raw /\
       trace (create_embedding_index np chunks model) = [CallEncode chunks]).
Proof.
  unfold create_embedding_index, as_float32. split; [|split].
  - intros ->. reflexivity.
  - intros raw -> Hrect. rewrite call_Return_bind, Hrect. eexists. reflexivity.
  - intros index embeddings.
    destruct (encode model chunks) as [raw|e] eqn:He; [|discriminate].
    rewrite call_Return_bind.
    destruct (rectangular raw) eqn:Hrect; [|discriminate].
    rewrite mret_bind. unfold shape1.
    destruct raw as [|v raw']; [discriminate|].
    simpl or_raise. rewrite mret_bind.
    destruct (EmbeddingIndex.build _) as [idx|e]; [|discriminate].
    intros [= <- <-]. exists (v :: raw').
    split; [reflexivity|]. split; [discriminate|]. split; [exact Hrect|].
    split; reflexivity.
Qed.

(* ===================================================================== *)
(** ** Chunk lookup *)
(* ===================================================================== *)

(** [l[i]] is defined for [-len(l) <= i < len(l)] and reads position
    [i mod len(l)]. *)
Lemma index_Some {A} (l : list A) (i : Z) (x : A) :
  PySeq.index l i = Some x <->
  - Z.of_nat (length l) <= i < Z.of_nat (length l) /\
  l !! Z.to_nat (i mod Z.of_nat (length l)) = Some x.
Proof.
  unfold PySeq.index. set (n := Z.of_nat (length l)).
  destruct (Z.leb_spec 0 i), (Z.ltb_spec i n), (Z.leb_spec (- n) i), (Z.ltb_spec i 0);
    simpl andb; cbv iota;
    try (exfalso; lia);
    try (split; [discriminate|intros [? _]; lia]).
  all: first [ rewrite Z.mod_small by lia
             | replace (i mod n) with (i + n)
                 by (apply (Z.mod_unique_pos i n (-1)); lia) ].
  all: split; [intros H'; split; [lia|exact H']|intros [_ H']; exact H'].
Qed.

Lemma index_elem {A} (l : list A) (i : Z) (x : A) :
  PySeq.index l i = Some x -> x ∈ l.
Proof. intros H. apply index_Some in H as [_ H]. eapply list_elem_of_lookup_2, H. Qed.

Lemma chunks_at_elem (chunks : list string) (ids : list Z) (texts : list string) :
  result (chunks_at chunks ids) = Return texts -> Forall (fun t => t ∈ chunks) texts.
Proof.
  intros H. apply chunks_at_Return in H.
  induction H as [|i t ids texts Hi _ IH]; constructor; [|exact IH].
  apply (index_elem chunks i t Hi).
Qed.

(** X13. [[chunks[i] for i in ids]] with Python's indexing: it raises
    [IndexError] exactly when some id lies outside
    [-len(chunks) <= i < len(chunks)], and otherwise returns, for each id,
    the chunk at position [i mod len(chunks)]: a negative id counts from
    the end, so an id of -1 silently selects the last chunk. *)
Theorem chunks_at_python_indexing (chunks : list string) (ids : list Z) :
  let n := Z.of_nat (length chunks) in
  (result (chunks_at chunks ids) = Raise IndexError <->
   Exists (fun i => i < - n \/ n <= i) ids) /\
  (forall texts,
     result (chunks_at chunks ids) = Return texts <->
     Forall2 (fun i t => - n <= i < n /\ chunks !! Z.to_nat (i mod n) = Some t)
       ids texts).
Proof.
  intros n. split.
  - unfold chunks_at. rewrite result_or_raise.
    destruct (mapM (PySeq.index chunks) ids) as [texts|] eqn:Hm.
    + split; [discriminate|]. intros Hex. exfalso.
      apply mapM_Some in Hm. induction Hm as [|i t ids texts Hi _ IH];
        [inversion Hex|].
      apply Exists_cons in Hex as [Hout|Hex]; [|exact (IH Hex)].
      apply index_Some in Hi as [Hin _]. fold n in Hin. lia.
    + split; [|reflexivity]. intros _. apply mapM_None in Hm.
      induction Hm as [i ids Hi|i ids _ IH]; [left|right; exact IH].
      destruct (Z.lt_ge_cases i (- n)) as [?|Hlo]; [left; assumption|].
      destruct (Z.lt_ge_cases i n) as [Hhi|?]; [|right; assumption].
      exfalso. destruct (chunks !! Z.to_nat (i mod n)) as [t|] eqn:Ht.
      * assert (PySeq.index chunks i = Some t) as Hs
          by (apply index_Some; fold n; split; [lia|exact Ht]).
        congruence.
      * apply lookup_ge_None in Ht.
        pose proof (Z.mod_pos_bound i n ltac:(lia)). unfold n in *. lia.
  - intros texts. rewrite chunks_at_Return. split; intros H.
    + induction H as [|i t ids texts Hi _ IH]; constructor; [|exact IH].
      apply index_Some in Hi. exact Hi.
    + induction H as [|i t ids texts Hi _ IH]; constructor; [|exact IH].
      apply index_Some. exact Hi.
Qed.

(** The lexical ids are positions of the score list. *)
Lemma bm25_top_indices_range (np : Numpy) (bm25_scores : list Q) (top_k i : Z) :
  i ∈ bm25_top_indices np bm25_scores top_k ->
  0 <= i < Z.of_nat (length bm25_scores).
Proof.
  unfold bm25_top_indices, PySeq.slice_to, PySeq.slice. intros Hi.
  apply (argsort_reversed_elem np).
  apply subseteq_take in Hi. apply list_elem_of_lookup in Hi as [k Hk].
  rewrite lookup_drop in Hk. eapply list_elem_of_lookup_2, Hk.
Qed.

(** X14. When the lexical index returns one score per chunk, the lexical
    lookup cannot fail: for every [top_k], negative ones included, each
    selected position is a position of [chunks], and for [top_k >= 0] the
    lookup yields [min top_k len(chunks)] chunk texts. *)
Theorem lexical_lookup_in_range (np : Numpy) (chunks : list string) (bm25_scores : list Q)
    (top_k : Z) :
  length bm25_scores = length chunks ->
  exists texts,
    result (chunks_at chunks (bm25_top_indices np bm25_scores top_k)) = Return texts /\
    Forall2 (fun i t => chunks !! Z.to_nat i = Some t)
      (bm25_top_indices np bm25_scores top_k) texts /\
    (0 <= top_k ->
     length texts = Z.to_nat (Z.min top_k (Z.of_nat (length chunks)))).
Proof.
  intros Hlen.
  assert (Forall (fun i => is_Some (PySeq.index chunks i))
            (bm25_top_indices np bm25_scores top_k)) as Hall.
  { apply Forall_forall. intros i Hi. apply bm25_top_indices_range in Hi.
    rewrite Hlen in Hi.
    destruct (lookup_lt_is_Some_2 chunks (Z.to_nat i)) as [t Ht]; [lia|].
    exists t. apply index_Some. rewrite Z.mod_small by lia. split; [lia|exact Ht]. }
  apply (mapM_is_Some_2 (PySeq.index chunks)) in Hall as [texts Htexts].
  exists texts. unfold chunks_at. rewrite Htexts. split; [reflexivity|].
  pose proof Htexts as Hf2. apply mapM_Some in Hf2. split.
  - assert (forall ids, Forall (fun i => 0 <= i < Z.of_nat (length chunks)) ids ->
              forall ts, Forall2 (fun i t => PySeq.index chunks i = Some t) ids ts ->
              Forall2 (fun i t => chunks !! Z.to_nat i = Some t) ids ts) as Hconv.
    { intros ids Hids ts H. induction H as [|i t ids ts Hi _ IH]; constructor.
      - apply Forall_cons in Hids as [Hr _].
        apply index_Some in Hi as [_ Hi]. rewrite Z.mod_small in Hi by lia. exact Hi.
      - apply Forall_cons in Hids as [_ Hr]. exact (IH Hr). }
    apply Hconv; [|exact Hf2]. apply Forall_forall. intros i Hi.
    apply bm25_top_indices_range in Hi. rewrite Hlen in Hi. exact Hi.
  - intros Hk. rewrite <- (Forall2_length _ _ _ Hf2).
    unfold bm25_top_indices. rewrite slice_to_take by exact Hk.
    rewrite length_take, length_reverse, argsort_length, Hlen. lia.
Qed.

(* ===================================================================== *)
(** ** What [retrieve] returns *)
(* ===================================================================== *)

(** Both candidate lists are made of chunks of the corpus. *)
Lemma retrieve_both_Return_inv (np : Numpy) (query : string) (chunks : list string)
    (embedding_index : FaissIndex) (embed_model : EmbedModel) (bm25 : Bm25)
    (top_k : Z) (fa fb : list string) :
  result (retrieve_both np query chunks embedding_index embed_model bm25 top_k)
    = Return (fa, fb) ->
  Forall (fun t => t ∈ chunks) fa /\ Forall (fun t => t ∈ chunks) fb.
Proof.
  unfold retrieve_both.
  rewrite result_bind, result_call.
  destruct (encode embed_model [query]) as [qe|e]; [|discriminate].
  cbv beta iota.
  rewrite result_bind, result_call. cbv beta iota.
  rewrite result_bind, result_as_float32.
  destruct (rectangular qe); [|discriminate].
  cbv beta iota.
  rewrite result_bind, result_call.
  destruct (search embedding_index _ top_k) as [[ds ixs]|e]; [|discriminate].
  cbv beta iota.
  rewrite result_bind, result_or_raise.
  destruct (PySeq.index ixs 0) as [row|]; [|discriminate].
  cbv beta iota.
  rewrite result_bind.
  destruct (result (chunks_at chunks row)) as [fa'|e] eqn:Hfa; [|discriminate].
  cbv beta iota.
  rewrite result_bind, result_call.
  destruct (get_scores bm25 _) as [scores|e]; [|discriminate].
  cbv beta iota.
  rewrite result_bind.
  destruct (result (chunks_at chunks (bm25_top_indices np scores top_k)))
    as [fb'|e] eqn:Hfb; [|discriminate].
  cbv beta iota.
  intros [= <- <-]. split; eapply chunks_at_elem; eassumption.
Qed.

(** The ways [retrieve] can return: [None] from the guard, the sentinel
    for an empty fusion, or the head and the whole of the ranked list. *)
Lemma retrieve_Return_inv (np : Numpy) (g : gmap string value) (so : SetOrder)
    (query : string) (chunks : list string) (embedding_index : FaissIndex)
    (embeddings : list (list Q)) (embed_model : EmbedModel) (bm25 : Bm25)
    (tokenized_corpus : list (list string)) (cross_encoder : CrossEncoder)
    (top_k : Z) (v : retval) :
  result (retrieve np g so query chunks embedding_index embeddings embed_model bm25
            tokenized_corpus cross_encoder top_k) = Return v ->
  v = RNone \/ v = no_results \/
  exists fa fb scores top s rest,
    Forall (fun t => t ∈ chunks) (fa ++ fb)%list /\
    ranked_candidates (candidate_set so fa fb) scores = (top, s) :: rest /\
    v = RTuple top s ((top, s) :: rest).
Proof.
  unfold retrieve, load_global.
  destruct (g !! "finance_keywords") as [[kws|]|]; simpl or_raise;
    [| |discriminate].
  - rewrite !mret_bind. simpl iter_strings. rewrite !mret_bind.
    destruct (any_keyword kws query); simpl negb; cbv iota.
    + unfold retrieve_candidates. rewrite result_bind.
      destruct (result (retrieve_both np query chunks embedding_index embed_model
                          bm25 top_k)) as [[fa fb]|e] eqn:Hboth; [|discriminate].
      apply retrieve_both_Return_inv in Hboth as [Hfa Hfb].
      cbv beta iota zeta.
      destruct (candidate_set so fa fb) as [|c cs] eqn:E.
      * intros [= <-]. right. left. reflexivity.
      * intros H. apply rerank_and_flag_inv in H
          as (scores & top & s & rest & _ & Hr & ->).
        right. right. exists fa, fb, scores, top, s, rest.
        rewrite E. split; [apply Forall_app; split; assumption|].
        split; [exact Hr|reflexivity].
    + intros [= <-]. left. reflexivity.
  - rewrite !mret_bind. discriminate.
Qed.

Lemma zip_fst_take {A B} (l : list A) (k : list B) :
  (zip l k).*1 = take (length k) l.
Proof.
  revert k. induction l as [|x l IH]; intros [|y k]; simpl; try reflexivity.
  f_equal. apply IH.
Qed.

(** X15. Whatever [retrieve] returns in its ranked list comes from the
    corpus and comes once: every ranked text is one of [chunks], and no
    text is ranked twice. *)
Theorem retrieve_ranked_from_corpus (np : Numpy) (g : gmap string value) (so : SetOrder)
    (query : string) (chunks : list string) (embedding_index : FaissIndex)
    (embeddings : list (list Q)) (embed_model : EmbedModel) (bm25 : Bm25)
    (tokenized_corpus : list (list string)) (cross_encoder : CrossEncoder)
    (top_k : Z) (top : string) (s : Q) (ranked : list (string * Q)) :
  result (retrieve np g so query chunks embedding_index embeddings embed_model bm25
            tokenized_corpus cross_encoder top_k) = Return (RTuple top s ranked) ->
  Forall (fun t => t ∈ chunks) ranked.*1 /\ NoDup ranked.*1.
Proof.
  intros H. apply retrieve_Return_inv in H
    as [H|[H|(fa & fb & scores & top' & s' & rest & Hin & Hr & H)]];
    [discriminate H| |].
  - injection H as _ _ ->. split; constructor.
  - injection H as _ _ ->. rewrite <- Hr. unfold ranked_candidates.
    destruct (sorted_desc_spec snd (zip (candidate_set so fa fb) scores))
      as (Hperm & _).
    rewrite Hperm, zip_fst_take. split.
    + apply Forall_forall. intros t Ht. apply subseteq_take in Ht.
      unfold candidate_set in Ht. rewrite set_iter_elem in Ht.
      rewrite Forall_forall in Hin. apply Hin, Ht.
    + apply (sublist_NoDup _ (candidate_set so fa fb));
        [apply set_iter_NoDup|apply sublist_take].
Qed.

(** X16. The first two components of the returned tuple are the head of
    the ranked list, a chunk of the corpus whose score no other ranked
    candidate exceeds; the one exception is the sentinel for an empty
    fusion, whose text is the fixed message, with confidence 0 and an
    empty list. *)
Theorem retrieve_top_is_best (np : Numpy) (g : gmap string value) (so : SetOrder)
    (query : string) (chunks : list string) (embedding_index : FaissIndex)
    (embeddings : list (list Q)) (embed_model : EmbedModel) (bm25 : Bm25)
    (tokenized_corpus : list (list string)) (cross_encoder : CrossEncoder)
    (top_k : Z) (top : string) (s : Q) (ranked : list (string * Q)) :
  result (retrieve np g so query chunks embedding_index embeddings embed_model bm25
            tokenized_corpus cross_encoder top_k) = Return (RTuple top s ranked) ->
  (ranked = [] /\ top = "No relevant information found." /\ s = 0%Q) \/
  (exists rest,
     ranked = (top, s) :: rest /\ top ∈ chunks /\
     Forall (fun p => (snd p <= s)%Q) rest).
Proof.
  intros H. apply retrieve_Return_inv in H
    as [H|[H|(fa & fb & scores & top' & s' & rest & Hin & Hr & H)]];
    [discriminate H| |].
  - injection H as -> -> ->. left. repeat split; reflexivity.
  - injection H as <- <- ->. right. exists rest. split; [reflexivity|].
    unfold ranked_candidates in Hr.
    destruct (sorted_desc_spec snd (zip (candidate_set so fa fb) scores))
      as (Hperm & Hsorted & _).
    rewrite Hr in Hperm, Hsorted. split.
    + assert ((top, s) ∈ zip (candidate_set so fa fb) scores) as Hz
        by (rewrite <- Hperm; left).
      apply elem_of_zip_l in Hz. unfold candidate_set in Hz.
      rewrite set_iter_elem in Hz. rewrite Forall_forall in Hin. apply Hin, Hz.
    + apply StronglySorted_inv in Hsorted as [_ Hhd]. exact Hhd.
Qed.

(* ===================================================================== *)
(** ** What [retrieve] asks of the cross-encoder *)
(* ===================================================================== *)

Lemma trace_call {A} (ev : event) (r : outcome A) : trace (call ev r) = [ev].
Proof. reflexivity. Qed.

Lemma trace_or_raise {A} (e : exn) (o : option A) : trace (or_raise e o) = [].
Proof. destruct o; reflexivity. Qed.

Lemma Forall_trace_bind {A B} (P : event -> Prop) (m : M A) (f : A -> M B) :
  Forall P (trace m) ->
  (forall a, result m = Return a -> Forall P (trace (f a))) ->
  Forall P (trace (m ≫= f)).
Proof.
  intros Hm Hf. rewrite trace_bind. apply Forall_app. split; [exact Hm|].
  destruct (result m) as [a|e]; [apply Hf; reflexivity|constructor].
Qed.

(** The retrieval stage does not touch the cross-encoder. *)
Lemma retrieve_both_no_predict (np : Numpy) (query : string) (chunks : list string)
    (embedding_index : FaissIndex) (embed_model : EmbedModel) (bm25 : Bm25)
    (top_k : Z) :
  Forall not_predict
    (trace (retrieve_both np query chunks embedding_index embed_model bm25 top_k)).
Proof.
  assert (forall ev, (forall pairs, ev <> CallPredict pairs) -> Forall not_predict [ev])
    as Hone by (intros ev Hev; constructor; [exact Hev|constructor]).
  unfold retrieve_both, chunks_at.
  apply Forall_trace_bind; [apply Hone; discriminate|intros _ _].
  apply Forall_trace_bind; [apply Hone; discriminate|intros qe _].
  apply Forall_trace_bind; [rewrite trace_as_float32; constructor|intros qe32 _].
  apply Forall_trace_bind; [apply Hone; discriminate|intros [ds ixs] _].
  apply Forall_trace_bind; [rewrite trace_or_raise; constructor|intros row _].
  apply Forall_trace_bind; [rewrite trace_or_raise; constructor|intros fa _].
  apply Forall_trace_bind; [apply Hone; discriminate|intros scores _].
  apply Forall_trace_bind; [rewrite trace_or_raise; constructor|intros fb _].
  constructor.
Qed.

(** Re-ranking calls the cross-encoder once, first thing, on the
    candidates it was given. *)
Lemma rerank_and_flag_trace (query : string) (candidates : list string)
    (cross_encoder : CrossEncoder) :
  exists tl,
    trace (rerank_and_flag query candidates cross_encoder)
    = CallPredict (map (fun cand => (query, cand)) candidates) :: tl /\
    Forall not_predict tl.
Proof.
  unfold rerank_and_flag. rewrite trace_bind, trace_call, result_call.
  eexists. split; [reflexivity|].
  destruct (predict cross_encoder _) as [scores|e]; [|constructor].
  apply Forall_trace_bind; [rewrite trace_or_raise; constructor|intros [t s] _].
  apply Forall_trace_bind; [|intros _ _; constructor].
  destruct (Qltb s (3 # 10)); [|constructor].
  constructor; [discriminate|constructor].
Qed.

(** X17. Whenever [retrieve] calls the cross-encoder, the batch is not
    empty, holds no pair twice, and every pair couples the query with a
    chunk of the corpus: an empty fusion never reaches the scorer and no
    passage is scored twice for one query. *)
Theorem retrieve_predict_batches (np : Numpy) (g : gmap string value) (so : SetOrder)
    (query : string) (chunks : list string) (embedding_index : FaissIndex)
    (embeddings : list (list Q)) (embed_model : EmbedModel) (bm25 : Bm25)
    (tokenized_corpus : list (list string)) (cross_encoder : CrossEncoder)
    (top_k : Z) (pairs : list (string * string)) :
  CallPredict pairs ∈
    trace (retrieve np g so query chunks embedding_index embeddings embed_model bm25
             tokenized_corpus cross_encoder top_k) ->
  pairs <> [] /\ NoDup pairs /\
  Forall (fun p => fst p = query /\ snd p ∈ chunks) pairs.
Proof.
  unfold retrieve, load_global.
  destruct (g !! "finance_keywords") as [[kws|]|]; simpl or_raise.
  - rewrite !mret_bind. simpl iter_strings. rewrite !mret_bind.
    destruct (any_keyword kws query); simpl negb; cbv iota.
    + unfold retrieve_candidates. rewrite trace_bind. intros Hin.
      apply elem_of_app in Hin as [Hin|Hin].
      { pose proof (retrieve_both_no_predict np query chunks embedding_index
                      embed_model bm25 top_k) as Hno.
        rewrite Forall_forall in Hno. exfalso. exact (Hno _ Hin pairs eq_refl). }
      destruct (result (retrieve_both np query chunks embedding_index embed_model
                          bm25 top_k)) as [[fa fb]|e] eqn:Hboth;
        [|inversion Hin].
      apply retrieve_both_Return_inv in Hboth as [Hfa Hfb].
      cbv beta iota zeta in Hin.
      pose proof (set_iter_NoDup so (fa ++ fb)%list) as Hnd.
      pose proof (set_iter_elem so (fa ++ fb)%list) as Hel.
      fold (candidate_set so fa fb) in Hnd, Hel.
      destruct (candidate_set so fa fb) as [|c cs] eqn:E; [inversion Hin|].
      destruct (rerank_and_flag_trace query (c :: cs) cross_encoder)
        as (tl & Htl & Hno).
      rewrite Htl in Hin. apply elem_of_cons in Hin as [Heq|Hin].
      * assert (pairs = map (fun cand => (query, cand)) (c :: cs)) as ->
          by congruence.
        split; [discriminate|]. split.
        -- assert (Inj (=) (=) (fun cand : string => (query, cand))) as Hinj
             by (intros x y [= ->]; reflexivity).
           apply (NoDup_fmap_2 _), Hnd.
        -- apply Forall_forall. intros p Hp.
           apply list_elem_of_In, in_map_iff in Hp as (t & <- & Ht).
           split; [reflexivity|]. simpl.
           apply list_elem_of_In, Hel, elem_of_app in Ht as [Ht|Ht].
           ++ rewrite Forall_forall in Hfa. apply Hfa, Ht.
           ++ rewrite Forall_forall in Hfb. apply Hfb, Ht.
      * rewrite Forall_forall in Hno. exfalso. exact (Hno _ Hin pairs eq_refl).
    + intros Hin. apply elem_of_cons in Hin as [Hin|Hin]; [discriminate Hin|].
      inversion Hin.
  - rewrite !mret_bind. intros Hin. inversion Hin.
  - intros Hin. inversion Hin.
Qed.

(* ===================================================================== *)
(** ** The keyword test *)
(* ===================================================================== *)

Section Contains.
Import PyStr.






End Contains.


(** X19. Under [chunk_size > overlap >= 0] the number of chunks is the
    number of words divided by the step [chunk_size - overlap], rounded
    up. *)
Theorem chunk_text_count (fuel : nat) (text : string) (chunk_size overlap : Z)
    (chunks : list string) :
  chunk_size > overlap -> overlap >= 0 ->
  chunk_text fuel text chunk_size overlap = Some chunks ->
  let n := Z.of_nat (length (PyStr.split text)) in
  let step := chunk_size - overlap in
  Z.of_nat (length chunks) = (n + step - 1) / step.
Proof.
  intros Hcs Hov Hrun n step. unfold chunk_text in Hrun.
  destruct (chunk_loop_shape (PyStr.split text) chunk_size overlap fuel 0 [] chunks)
    as [Hshape Hstop]; [reflexivity| |exact Hrun|].
  { intros k d Hk. discriminate Hk. }
  fold n step in Hstop.
  assert (Z.of_nat (length chunks) = 0 \/
          (Z.of_nat (length chunks) - 1) * step < n) as Hlast.
  { destruct chunks as [|c0 cs] eqn:E using rev_ind; [left; reflexivity|right].
    rewrite length_app. simpl length.
    destruct (Hshape (length cs) c0) as [_ Hlt].
    - rewrite lookup_app_r by lia. rewrite Nat.sub_diag. reflexivity.
    - fold n step in Hlt. replace (Z.of_nat (length cs + 1) - 1) with
        (Z.of_nat (length cs)) by lia. exact Hlt. }
  apply (Z.div_unique _ step _ (n + step - 1 - step * Z.of_nat (length chunks)));
    [|lia].
  left. unfold step in *. nia.
Qed.

(* ===================================================================== *)
(** ** The prompt of [generate_response] *)
(* ===================================================================== *)

Section Prompt.
Import PyStr.

Lemma chars_app (a b : string) : chars (a ++ b) = (chars a ++ chars b)%list.
Proof.
  induction a as [|c a IH]; [reflexivity|].
  rewrite append_String. simpl. rewrite IH. reflexivity.
Qed.

Lemma chars_inj (a b : string) : chars a = chars b -> a = b.
Proof.
  revert b. induction a as [|c a IH]; intros [|d b] H; try discriminate H.
  - reflexivity.
  - simpl in H. injection H as -> H. rewrite (IH b H). reflexivity.
Qed.

Lemma append_inv_head (p a b : string) : p ++ a = p ++ b -> a = b.
Proof.
  induction p as [|c p IH]; [auto|].
  rewrite !append_String. intros [= H]. exact (IH H).
Qed.

Lemma append_inv_tail (a b t : string) : a ++ t = b ++ t -> a = b.
Proof.
  intros H. apply chars_inj. apply (f_equal chars) in H.
  rewrite !chars_app in H. exact (app_inv_tail _ _ _ H).
Qed.

(** Two texts free of line feeds that agree up to and after their first
    line feed agree. *)
Lemma append_newline_inj (q q' r r' : string) :
  Forall (fun c => c <> ascii_of_nat 10) (chars q) ->
  Forall (fun c => c <> ascii_of_nat 10) (chars q') ->
  q ++ newline ++ r = q' ++ newline ++ r' -> q = q' /\ r = r'.
Proof.
  unfold newline. rewrite !append_String, !append_Empty_l.
  revert q'. induction q as [|c q IH]; intros [|c' q'] Hq Hq'.
  - rewrite !append_Empty_l. intros [= ->]. split; reflexivity.
  - rewrite append_Empty_l, append_String. intros [= <- _].
    simpl in Hq'. apply Forall_cons in Hq' as [Hc _]. congruence.
  - rewrite append_Empty_l, append_String. intros [= -> _].
    simpl in Hq. apply Forall_cons in Hq as [Hc _]. congruence.
  - rewrite !append_String. intros [= -> H].
    simpl in Hq, Hq'. apply Forall_cons in Hq as [_ Hq].
    apply Forall_cons in Hq' as [_ Hq'].
    destruct (IH q' Hq Hq' H) as [-> ->]. split; reflexivity.
Qed.

End Prompt.

(** X20. The prompt keeps question and context apart: for queries
    without a line feed (a single-line input), two prompts are equal only
    if both the queries and the contexts are equal. *)
Theorem prompt_injective (query query' context context' : string) :
  Forall (fun c => c <> ascii_of_nat 10) (PyStr.chars query) ->
  Forall (fun c => c <> ascii_of_nat 10) (PyStr.chars query') ->
  prompt query context = prompt query' context' ->
  query = query' /\ context = context'.
Proof.
  unfold prompt. intros Hq Hq' H.
  apply append_inv_head in H.
  apply append_newline_inj in H as [-> H]; [|assumption..].
  split; [reflexivity|].
  apply append_inv_head in H.
  apply (append_inv_tail _ _ _ H).
Qed.

(* ===================================================================== *)
(** ** The further theorems on sample inputs *)
(* ===================================================================== *)

Lemma chunk_sizes_sample :
  (1 <= length (PyStr.split "a b c") <= Z.to_nat 3)%nat.
Proof.
  apply (chunk_text_chunk_sizes 8 "a b c d e f g" 3 1
           ["a b c"; "c d e"; "e f g"; "g"]);
    [lia|lia|reflexivity|left].
Defined.

Lemma chunk_overlap_sample :
  drop (Z.to_nat (3 - 1)) (PyStr.split "a b c")
  = take (Z.to_nat 1) (PyStr.split "c d e").
Proof.
  apply (chunk_text_overlap 8 "a b c d e f g" 3 1
           ["a b c"; "c d e"; "e f g"; "g"] 0);
    [lia|lia|reflexivity|reflexivity|reflexivity].
Defined.

Lemma chunk_partition_sample :
  concat (map PyStr.split ["a b"; "c d"; "e"]) = PyStr.split " a b  c d e".
Proof.
  apply (chunk_text_partition 5 " a b  c d e" 2); [lia|reflexivity].
Defined.

Lemma chunk_never_exits_sample :
  chunk_text 1000 "cash" 50 50 = None.
Proof.
  apply (chunk_text_never_exits "cash" 50 50); [lia|].
  intros H. vm_compute in H. discriminate H.
Defined.

Lemma chunk_count_sample :
  Z.of_nat (length ["a b c"; "c d e"; "e f g"; "g"])
  = (Z.of_nat (length (PyStr.split "a b c d e f g")) + (3 - 1) - 1) / (3 - 1).
Proof.
  apply (chunk_text_count 8 "a b c d e f g" 3 1); [lia|lia|reflexivity].
Defined.

Lemma process_pdfs_covers_sample :
  exists fuel all_chunks,
    (forall fuel', (fuel <= fuel')%nat ->
       process_pdfs fuel' [[Some "a b c"; Some "d"]; [Some " e  f "]] 3 1
       = Some all_chunks) /\
    (forall pdf_file page_text w,
       pdf_file ∈ [[Some "a b c"; Some "d"]; [Some " e  f "]] ->
       Some page_text ∈ pdf_file -> w ∈ PyStr.split page_text ->
       exists c, c ∈ all_chunks /\ w ∈ PyStr.split c).
Proof.
  apply (process_pdfs_covers [[Some "a b c"; Some "d"]; [Some " e  f "]] 3 1); lia.
Defined.

Lemma process_pdfs_within_file_sample :
  exists pdf_file before after,
    pdf_file ∈ [[Some "a b c"; Some "d"]; [Some " e  f "]] /\
    concat (map page_words pdf_file) = (before ++ PyStr.split "c d" ++ after)%list /\
    (1 <= length (PyStr.split "c d") <= Z.to_nat 3)%nat.
Proof.
  apply (process_pdfs_chunk_within_file 5
           [[Some "a b c"; Some "d"]; [Some " e  f "]] 3 1 ["a b c"; "c d"; "e f"]);
    [lia|lia|reflexivity|right; left].
Defined.

Lemma process_pdfs_no_words_sample :
  process_pdfs 1 [[None; Some ""]; [Some "  "]] 500 50 = Some [].
Proof.
  apply (process_pdfs_no_words 0 [[None; Some ""]; [Some "  "]] 500 50).
  repeat constructor.
Defined.

Lemma create_bm25_index_sample :
  Demo.BM25Okapi Demo.tokenized_corpus = Return Demo.bm25 /\
  Demo.tokenized_corpus
  = map (fun chunk => map PyStr.lower (PyStr.split chunk)) Demo.chunks /\
  Forall (Forall (fun token => PyStr.word token /\ PyStr.lower token = token))
    Demo.tokenized_corpus.
Proof.
  apply (create_bm25_index_tokens Demo.BM25Okapi Demo.chunks). reflexivity.
Defined.

Lemma create_embedding_index_sample :
  exists raw,
    encode Demo.embed_model Demo.chunks = Return raw /\
    raw <> [] /\ rectangular raw = true /\
    Demo.embeddings = map (map (float32 Demo.numpy)) raw /\
    trace (create_embedding_index Demo.numpy Demo.chunks Demo.embed_model)
    = [CallEncode Demo.chunks].
Proof.
  apply (proj2 (proj2 (create_embedding_index_embeddings Demo.numpy Demo.chunks
                         Demo.embed_model))
           Demo.embedding_index).
  reflexivity.
Defined.

Lemma lexical_lookup_sample :
  exists texts,
    result (chunks_at Demo.chunks (bm25_top_indices Demo.numpy [1; 1; 0]%Q 2)) = Return texts /\
    Forall2 (fun i t => Demo.chunks !! Z.to_nat i = Some t)
      (bm25_top_indices Demo.numpy [1; 1; 0]%Q 2) texts /\
    (0 <= 2 -> length texts = Z.to_nat (Z.min 2 (Z.of_nat (length Demo.chunks)))).
Proof.
  apply (lexical_lookup_in_range Demo.numpy Demo.chunks [1; 1; 0]%Q 2). reflexivity.
Defined.

Lemma retrieve_ranked_sample :
  let ranked := [("revenue grew 10%", 9 # 10); ("weather was sunny", 1 # 10);
                 ("operating margin improved", 1 # 10)] in
  Forall (fun t => t ∈ Demo.chunks) ranked.*1 /\ NoDup ranked.*1.
Proof.
  apply (retrieve_ranked_from_corpus Demo.numpy Demo.globals_with_keywords
           last_occurrence_order Demo.query Demo.chunks Demo.embedding_index
           Demo.embeddings Demo.embed_model Demo.bm25 Demo.tokenized_corpus
           Demo.cross_encoder 5 "revenue grew 10%" (9 # 10)).
  vm_compute. reflexivity.
Defined.

Lemma retrieve_top_sample :
  ([("revenue grew 10%", 9 # 10); ("weather was sunny", 1 # 10);
    ("operating margin improved", 1 # 10)] = []
   /\ "revenue grew 10%" = "No relevant information found." /\ (9 # 10) = 0%Q) \/
  (exists rest,
     [("revenue grew 10%", 9 # 10); ("weather was sunny", 1 # 10);
      ("operating margin improved", 1 # 10)] = ("revenue grew 10%", 9 # 10) :: rest /\
     "revenue grew 10%" ∈ Demo.chunks /\
     Forall (fun p => (snd p <= 9 # 10)%Q) rest).
Proof.
  apply (retrieve_top_is_best Demo.numpy Demo.globals_with_keywords
           last_occurrence_order Demo.query Demo.chunks Demo.embedding_index
           Demo.embeddings Demo.embed_model Demo.bm25 Demo.tokenized_corpus
           Demo.cross_encoder 5).
  vm_compute. reflexivity.
Defined.

Lemma retrieve_predict_sample :
  let pairs := [(Demo.query, "weather was sunny"); (Demo.query, "revenue grew 10%");
                (Demo.query, "operating margin improved")] in
  pairs <> [] /\ NoDup pairs /\
  Forall (fun p => fst p = Demo.query /\ snd p ∈ Demo.chunks) pairs.
Proof.
  apply (retrieve_predict_batches Demo.numpy Demo.globals_with_keywords
           last_occurrence_order Demo.query Demo.chunks Demo.embedding_index
           Demo.embeddings Demo.embed_model Demo.bm25 Demo.tokenized_corpus
           Demo.cross_encoder 5).
  apply list_elem_of_In. vm_compute. do 4 right. left. reflexivity.
Defined.


Lemma prompt_injective_sample :
  "net income?" = "net income?" /\ "income rose" = "income rose".
Proof.
  apply (prompt_injective "net income?" "net income?" "income rose" "income rose");
    [simpl; repeat constructor; discriminate ..|reflexivity].
Defined.
